(** * The JavaScript interface bridge of react-native-webview

    A shallow embedding of [src/JavaScriptInterface.ts] (the capability
    registry, the call dispatcher and the generator of the bootstrap script),
    of the code inside the generated bootstrap (the stub functions and the
    response handler that run in the web view) and of [enhancedOnMessage] in
    [src/WebView.ios.tsx], followed by the properties of the bridge.

    Conventions.
    - Values that cross the bridge are the serializable values of the wire
      format ([JsValue]); numbers are the integers, and a string is its text
      in UTF-8.  An exception or a rejection reason is a [Thrown]: an [Error]
      instance with its message, or any other value.
    - The conversion of a value to a string ([String(v)], a template literal,
      a property key) is partial: it throws a TypeError on an object that has
      a property [toString] of its own, which for these values is never a
      function.
    - TypeScript types are erased at run time, and [enhancedOnMessage] casts
      whatever [JSON.parse] returned to a call envelope.  The fields of an
      envelope are therefore [JsValue]s; [envelope] builds the envelopes that
      have the declared types.
    - A JavaScript [Map] keeps its keys in insertion order, which the script
      generator observes: it is an association list ([JsMap]).  The pending
      table of the bootstrap is a plain object: its own properties are a
      [gmap], and reads fall back to [Object.prototype].
    - Effects of the host code (console output, handler invocations, scripts
      injected into the web view, calls of the host's [onMessage] prop) are
      collected in a trace, in program order; [throw] and [try]/[catch] are
      those of the completion monad [M]. *)

From Stdlib Require Import ZArith String Ascii List DecimalString.
From stdpp Require Import base option list strings gmap.

Set Default Proof Using "Type".

(** ** Values *)

#[warnings="-register-all"] Inductive JsValue : Type :=
| JUndefined
| JNull
| JBool (b : bool)
| JNum (n : Z)
| JStr (s : string)
| JArr (items : list JsValue)
| JObj (props : list (string * JsValue)).

(** The decimal digits of an integer, with a minus sign if it is negative. *)
Definition decimal (n : Z) : string := NilZero.string_of_int (Z.to_int n).

(** What a [throw] carries, and what a promise is rejected with. *)
Inductive Thrown : Type :=
| ThrownError (message : string)   (* error instanceof Error *)
| ThrownValue (v : JsValue).       (* anything else *)

(** Errors raised by the JavaScript engine itself. Their messages differ
    between engines, so the engine supplies them. *)
Inductive EngineError : Type :=
| JsonSyntaxError (text : string)           (* JSON.parse on malformed text *)
| ReadOfNullish (v : JsValue) (prop : string) (* null.prop, undefined.prop *)
| NotIterable (v : JsValue)                 (* f(...v) *)
| NotAFunction (prop : string)              (* o.prop(...) with o.prop undefined *)
| NotPrimitive (v : JsValue).               (* String(v), v without a usable toString *)

Class JsEngine : Type := {
  (** [JSON.parse]; [None] when it throws a SyntaxError. *)
  JSON_parse : string -> option JsValue;
  (** [JSON.stringify]; [None] when it returns [undefined]. On the
      serializable values of [JsValue] it does not throw. *)
  JSON_stringify : JsValue -> option string;
  (** [String(n)] for an integer [n] beyond the safe integers, which the
      engine prints with the shortest digits that identify the number, in
      exponent notation from [1e21] on. *)
  Number_toString : Z -> string;
  engine_message : EngineError -> string
}.

(** Whether an object with these properties has the property [prop] of its
    own. *)
Definition has_own_property (prop : string) (props : list (string * JsValue))
    : bool :=
  existsb (fun kv => String.eqb (fst kv) prop) props.

(** [Number.MAX_SAFE_INTEGER + 1]: up to this magnitude every integer is a
    number of its own, and [String] prints its digits. *)
Definition two_53 : Z := 9007199254740992.

Section conversion.
Context {engine : JsEngine}.

(** [String(v)], also the conversion of [v] in a template literal [`${v}`]
    and in a property key [o[v]]; [None] when the conversion throws a
    TypeError.
    - An integer prints as its digits up to the magnitude [two_53]; beyond
      it the text is the one the engine gives ([1e+21] for ten to the
      power 21).
    - An array is joined with commas ([Array.prototype.join]): [null] and
      [undefined] elements print as empty, the others are converted in
      order, and the first conversion that throws ends the join.
    - An object without a [toString] of its own inherits the one of
      [Object.prototype]. A [toString] of its own is not a function here, so
      the conversion goes on to [valueOf], which is not a function either or
      is the inherited one and returns the object: no primitive comes out,
      and the conversion throws. *)
Fixpoint js_String (v : JsValue) : option string :=
  match v with
  | JUndefined => Some "undefined"
  | JNull => Some "null"
  | JBool true => Some "true"
  | JBool false => Some "false"
  | JNum n =>
      Some (if Z.leb (Z.abs n) two_53 then decimal n else Number_toString n)
  | JStr s => Some s
  | JArr items =>
      let element x :=
        match x with
        | JUndefined | JNull => Some ""
        | _ => js_String x
        end in
      match (fix join (l : list JsValue) : option (list string) :=
               match l with
               | [] => Some []
               | x :: rest =>
                   match element x with
                   | Some text =>
                       match join rest with
                       | Some texts => Some (text :: texts)
                       | None => None
                       end
                   | None => None
                   end
               end) items with
      | Some texts => Some (String.concat "," texts)
      | None => None
      end
  | JObj props =>
      if has_own_property "toString" props then None
      else Some "[object Object]"
  end.

End conversion.

(** ** Insertion-ordered maps with string keys (JavaScript's [Map]) *)

Module JsMap.
Section ops.
Context {V : Type}.

Definition t := list (string * V).

Definition empty : t := [].

(** [m.clear()] *)
Definition clear (m : t) : t := [].

(** [m.get(k)]; [None] is [undefined]. *)
Fixpoint get (k : string) (m : t) : option V :=
  match m with
  | [] => None
  | (k', v) :: rest => if String.eqb k' k then Some v else get k rest
  end.

(** [m.has(k)] *)
Fixpoint has (k : string) (m : t) : bool :=
  match m with
  | [] => false
  | (k', _) :: rest => if String.eqb k' k then true else has k rest
  end.

(** [m.set(k, v)]: an existing key keeps its position, a new key is
    appended. *)
Fixpoint set (k : string) (v : V) (m : t) : t :=
  match m with
  | [] => [(k, v)]
  | (k', v') :: rest =>
      if String.eqb k' k then (k', v) :: rest else (k', v') :: set k v rest
  end.

(** [Array.from(m.keys())] *)
Definition keys (m : t) : list string := List.map fst m.
End ops.
Arguments t : clear implicits.
End JsMap.

(** [m.get(key)] for a key of any type: the keys of the registry are
    strings, and a key of another type is the same as none of them. *)
Definition Map_get_any {V} (key : JsValue) (m : JsMap.t V) : option V :=
  match key with
  | JStr s => JsMap.get s m
  | _ => None
  end.

(** ** Effects *)

Inductive Event : Type :=
| ConsoleLog (args : list JsValue)
| ConsoleError (args : list JsValue)
| HandlerCall (interfaceName methodName : JsValue) (args : list JsValue)
| InjectJavaScript (script : string)
| OnMessageProp (data : string).

Inductive Completion (A : Type) : Type :=
| Normal (a : A)
| Throw (t : Thrown).
Arguments Normal {A} a.
Arguments Throw {A} t.

Record M (A : Type) : Type := MkM { trace : list Event; completion : Completion A }.
Arguments MkM {A} trace completion.
Arguments trace {A} m.
Arguments completion {A} m.

#[export] Instance M_ret : MRet M := fun A a => MkM [] (Normal a).

#[export] Instance M_bind : MBind M := fun A B k m =>
  match completion m with
  | Normal a => MkM (trace m ++ trace (k a)) (completion (k a))
  | Throw t => MkM (trace m) (Throw t)
  end.

Definition throw {A} (t : Thrown) : M A := MkM [] (Throw t).

Definition emit (e : Event) : M unit := MkM [e] (Normal tt).

(** [try { body } catch (error) { handler error }] *)
Definition try_catch {A} (body : M A) (handler : Thrown -> M A) : M A :=
  match completion body with
  | Normal a => body
  | Throw t => MkM (trace body ++ trace (handler t)) (completion (handler t))
  end.

Definition when (b : bool) (m : M unit) : M unit := if b then m else mret tt.

(** ** The data model of [JavaScriptInterface.ts] *)

(** What [handler(...args)] does once it has been called: return or throw, or
    return a promise that is later fulfilled or rejected. *)
Inductive HandlerOutcome : Type :=
| Returns (v : JsValue)
| Throws (t : Thrown)
| Resolves (v : JsValue)
| Rejects (t : Thrown).

Definition Handler : Type := list JsValue -> HandlerOutcome.

(** What [await] makes of an outcome: the value produced, or the exception
    that surfaces at the [await]. *)
Definition settled (outcome : HandlerOutcome) : Completion JsValue :=
  match outcome with
  | Returns v | Resolves v => Normal v
  | Throws t | Rejects t => Throw t
  end.

Record JavaScriptInterfaceMethod : Type := {
  method_name : string;
  method_handler : Handler
}.

Record JavaScriptInterfaceObject : Type := {
  object_name : string;
  object_methods : list JavaScriptInterfaceMethod
}.

Record JavaScriptInterfaceConfig : Type := {
  config_interfaces : list JavaScriptInterfaceObject;
  config_enableDebugLogging : option bool
}.

Record JavaScriptInterfaceCall : Type := {
  call_interfaceName : JsValue;
  call_methodName : JsValue;
  call_args : JsValue;
  call_callId : JsValue
}.

(** The envelopes that have the declared type: two strings, an array and a
    string. *)
Definition envelope (interfaceName methodName : string)
    (args : list JsValue) (callId : string) : JavaScriptInterfaceCall :=
  {| call_interfaceName := JStr interfaceName;
     call_methodName := JStr methodName;
     call_args := JArr args;
     call_callId := JStr callId |}.

(** [response_result] and [response_error] are [None] when the object has no
    such property. *)
Record JavaScriptInterfaceResponse : Type := {
  response_type : string;
  response_callId : JsValue;
  response_success : bool;
  response_result : option JsValue;
  response_error : option string
}.

Record JavaScriptInterfaceManager : Type := {
  interfaces : JsMap.t (JsMap.t Handler);
  enableDebugLogging : bool
}.

(** ** The capability registry *)

(** The state of a manager before its constructor has configured it. *)
Definition new_manager : JavaScriptInterfaceManager :=
  {| interfaces := JsMap.empty; enableDebugLogging := false |}.

(** The method map that the inner loop of [configure] builds for one
    interface object. *)
Definition build_methodMap (methods : list JavaScriptInterfaceMethod)
    : JsMap.t Handler :=
  fold_left (fun methodMap method =>
               JsMap.set (method_name method) (method_handler method) methodMap)
            methods JsMap.empty.

Definition configure (config : JavaScriptInterfaceConfig)
    (this : JavaScriptInterfaceManager) : JavaScriptInterfaceManager :=
  let enableDebugLogging' :=
    match config_enableDebugLogging config with   (* x || false *)
    | Some true => true
    | _ => false
    end in
  let cleared := JsMap.clear (interfaces this) in
  {| enableDebugLogging := enableDebugLogging';
     interfaces :=
       fold_left (fun ifaces interfaceObj =>
                    JsMap.set (object_name interfaceObj)
                              (build_methodMap (object_methods interfaceObj))
                              ifaces)
                 (config_interfaces config) cleared |}.

(** [new JavaScriptInterfaceManager(config)] *)
Definition constructor (config : option JavaScriptInterfaceConfig)
    : JavaScriptInterfaceManager :=
  match config with
  | Some c => configure c new_manager
  | None => new_manager
  end.

Definition getInterfaceNames (this : JavaScriptInterfaceManager) : list string :=
  JsMap.keys (interfaces this).

Definition hasInterface (this : JavaScriptInterfaceManager) (name : string) : bool :=
  JsMap.has name (interfaces this).

Definition hasMethod (this : JavaScriptInterfaceManager)
    (interfaceName methodName : string) : bool :=
  match JsMap.get interfaceName (interfaces this) with
  | Some interfaceMap => JsMap.has methodName interfaceMap
  | None => false
  end.

(** ** The call dispatcher *)

(** A byte [10xxxxxx], which continues a character of UTF-8 text. *)
Definition is_continuation (c : ascii) : bool :=
  match c with
  | Ascii _ _ _ _ _ _ false true => true
  | _ => false
  end.

(** The characters of the text [s] that follows the bytes [pending] of a
    character: a character is a byte that continues none, with the bytes
    that continue it. *)
Fixpoint characters (pending : string) (s : string) : list string :=
  match s with
  | EmptyString =>
      match pending with
      | EmptyString => []
      | _ => [pending]
      end
  | String c rest =>
      if is_continuation c then characters (pending +:+ String c EmptyString) rest
      else
        match pending with
        | EmptyString => []
        | _ => [pending]
        end ++ characters (String c EmptyString) rest
  end.

(** The characters of a string, each as a string: what iterating a string
    yields, code point by code point. *)
Definition string_chars (s : string) : list JsValue :=
  List.map JStr (characters "" s).

Section dispatcher.
Context {engine : JsEngine}.

(** The argument list of [f(...args)]: arrays and strings are iterable, the
    other values make the spread throw a TypeError. *)
Definition spread (args : JsValue) : M (list JsValue) :=
  match args with
  | JArr items => mret items
  | JStr s => mret (string_chars s)
  | v => throw (ThrownError (engine_message (NotIterable v)))
  end.

(** [await handler(...argv)]: the call is recorded, a synchronous [throw] and
    a rejected promise both surface as an exception at the [await]. *)
Definition await_handler (interfaceName methodName : JsValue)
    (handler : Handler) (argv : list JsValue) : M JsValue :=
  emit (HandlerCall interfaceName methodName argv) ;;
  MkM [] (settled (handler argv)).

(** The text of [`${JSON.stringify(v)}`]. *)
Definition stringify_text (v : JsValue) : string :=
  match JSON_stringify v with
  | Some text => text
  | None => "undefined"
  end.

(** The conversion of [v] in a template literal. *)
Definition to_string (v : JsValue) : M string :=
  match js_String v with
  | Some text => mret text
  | None => throw (ThrownError (engine_message (NotPrimitive v)))
  end.

Definition handleCall (this : JavaScriptInterfaceManager)
    (call : JavaScriptInterfaceCall) : M JavaScriptInterfaceResponse :=
  let interfaceName := call_interfaceName call in
  let methodName := call_methodName call in
  let args := call_args call in
  let callId := call_callId call in
  (* this log is outside the [try]: a throw of its template ends the call *)
  when (enableDebugLogging this)
    (interfaceText ← to_string interfaceName ;
     methodText ← to_string methodName ;
     emit (ConsoleLog
       [JStr ("[JavaScriptInterface] Calling " +:+ interfaceText +:+ "."
              +:+ methodText +:+ "(" +:+ stringify_text args +:+ ")")])) ;;
  try_catch
    (interfaceMap ←
       match Map_get_any interfaceName (interfaces this) with
       | Some interfaceMap => mret interfaceMap
       | None =>
           interfaceText ← to_string interfaceName ;
           throw (ThrownError ("Interface '" +:+ interfaceText +:+ "' not found"))
       end ;
     handler ←
       match Map_get_any methodName interfaceMap with
       | Some handler => mret handler
       | None =>
           methodText ← to_string methodName ;
           interfaceText ← to_string interfaceName ;
           throw (ThrownError
             ("Method '" +:+ methodText +:+ "' not found on interface '"
              +:+ interfaceText +:+ "'"))
       end ;
     argv ← spread args ;
     result ← await_handler interfaceName methodName handler argv ;
     when (enableDebugLogging this)
       (interfaceText ← to_string interfaceName ;
        methodText ← to_string methodName ;
        emit (ConsoleLog
          [JStr ("[JavaScriptInterface] " +:+ interfaceText +:+ "."
                 +:+ methodText +:+ " returned:"); result])) ;;
     mret {| response_type := "JS_INTERFACE_RESPONSE";
             response_callId := callId;
             response_success := true;
             response_result := Some result;
             response_error := None |})
    (fun error =>
       (* the conversions of the [catch] clause are under no [try] *)
       errorMessage ←
         match error with
         | ThrownError message => mret message
         | ThrownValue v => to_string v
         end ;
       when (enableDebugLogging this)
         (interfaceText ← to_string interfaceName ;
          methodText ← to_string methodName ;
          emit (ConsoleError
            [JStr ("[JavaScriptInterface] Error in " +:+ interfaceText
                   +:+ "." +:+ methodText +:+ ":"); JStr errorMessage])) ;;
       mret {| response_type := "JS_INTERFACE_RESPONSE";
               response_callId := callId;
               response_success := false;
               response_result := None;
               response_error := Some errorMessage |}).

End dispatcher.

(** ** The bootstrap generator *)

(** The template literal of one stub, [methodNames.map(methodName => `...`)],
    with its line breaks and indentation. *)
Definition methodDefinition (interfaceName methodName : string) : string :=
  "
        " +:+ methodName +:+ ": function(...args) {
          return new Promise((resolve, reject) => {
            const callId = 'call_' + Date.now() + '_' + Math.random().toString(36).substr(2, 9);
            
            // Store the promise callbacks
            window.__jsInterfaceCallbacks = window.__jsInterfaceCallbacks || {};
            window.__jsInterfaceCallbacks[callId] = { resolve, reject };
            
            // Send the call to React Native
            const message = {
              type: 'JS_INTERFACE_CALL',
              interfaceName: '"
  +:+ interfaceName +:+ "',
              methodName: '"
  +:+ methodName +:+ "',
              args: args,
              callId: callId
            };
            
            if (window.ReactNativeWebView && window.ReactNativeWebView.postMessage) {
              window.ReactNativeWebView.postMessage(JSON.stringify(message));
            } else {
              reject(new Error('ReactNativeWebView not available'));
            }
          });
        }".

(** The template literal of one interface object. *)
Definition interfaceDefinition (interfaceName : string)
    (methodNames : list string) : string :=
  let methodDefinitions :=
    String.concat "," (List.map (methodDefinition interfaceName) methodNames) in
  "
        window." +:+ interfaceName +:+ " = {" +:+ methodDefinitions +:+ "
        };".

(** The text before and after [${interfaceDefinitions}] in the template
    literal that [generateInjectionScript] returns. *)
Definition script_prologue : string :=
  "
      (function() {
        // Initialize callback storage
        window.__jsInterfaceCallbacks = window.__jsInterfaceCallbacks || {};
        
        // Handle responses from React Native
        window.__handleJSInterfaceResponse = function(response) {
          const callback = window.__jsInterfaceCallbacks[response.callId];
          if (callback) {
            delete window.__jsInterfaceCallbacks[response.callId];
            
            if (response.success) {
              callback.resolve(response.result);
            } else {
              callback.reject(new Error(response.error || 'Unknown error'));
            }
          }
        };
        
        // Define interface objects
        ".

Definition script_epilogue : string :=
  "
      })();
    ".

(** The separator of [.join('\n')]. *)
Definition newline : string := String (ascii_of_nat 10) EmptyString.

Definition generateInjectionScript (this : JavaScriptInterfaceManager) : string :=
  let interfaceNames := JsMap.keys (interfaces this) in
  if Nat.eqb (List.length interfaceNames) 0 then ""
  else
    let interfaceDefinitions :=
      String.concat newline
        (List.map
           (fun interfaceName =>
              (* the name is a key of the map, so [get] finds its method map *)
              let methodMap :=
                default JsMap.empty (JsMap.get interfaceName (interfaces this)) in
              let methodNames := JsMap.keys methodMap in
              interfaceDefinition interfaceName methodNames)
           interfaceNames) in
    script_prologue +:+ interfaceDefinitions +:+ script_epilogue.

(** ** The code of the bootstrap, as it runs in the web view *)

Inductive PromiseState : Type :=
| Pending
| Fulfilled (value : JsValue)
| Rejected (reason : Thrown).

(** The object [{ resolve, reject }] stored for a call: the resolving
    functions of a promise, named by the index of their promise. *)
Record Callback : Type := {
  callback_resolve : nat;
  callback_reject : nat
}.

Record Window : Type := {
  (** [window.__jsInterfaceCallbacks]: [None] while undefined, else the own
      properties of the object. *)
  jsInterfaceCallbacks : option (gmap string Callback);
  (** [window.ReactNativeWebView && window.ReactNativeWebView.postMessage] *)
  postMessage_available : bool;
  (** The texts handed to [postMessage], oldest first. *)
  posted : list string;
  (** The promises the stubs have created. *)
  promises : list PromiseState
}.

(** Calling a resolving function settles its promise if it is still pending
    and does nothing otherwise. *)
Definition settle (p : nat) (outcome : PromiseState) (w : Window) : Window :=
  match promises w !! p with
  | Some Pending =>
      {| jsInterfaceCallbacks := jsInterfaceCallbacks w;
         postMessage_available := postMessage_available w;
         posted := posted w;
         promises := <[p := outcome]> (promises w) |}
  | _ => w
  end.

(** The names that every plain object inherits from [Object.prototype]. *)
Definition Object_prototype_names : list string :=
  ["constructor"; "__proto__"; "hasOwnProperty"; "isPrototypeOf";
   "propertyIsEnumerable"; "toLocaleString"; "toString"; "valueOf";
   "__defineGetter__"; "__defineSetter__"; "__lookupGetter__";
   "__lookupSetter__"].

Definition inherited (key : string) : bool :=
  existsb (String.eqb key) Object_prototype_names.

(** What [table[key]] evaluates to, for the plain object [table]. *)
Inductive TableRead : Type :=
| ReadUndefined
| ReadCallback (callback : Callback)
| ReadInherited.          (* a member of Object.prototype: truthy, and it
                             has neither a [resolve] nor a [reject] *)

Definition table_read (table : gmap string Callback) (key : string) : TableRead :=
  match table !! key with
  | Some callback => ReadCallback callback
  | None => if inherited key then ReadInherited else ReadUndefined
  end.

(** The call id a stub computes from [Date.now()], a count of milliseconds
    that prints as its digits, and from the fragment
    [Math.random().toString(36).substr(2, 9)]. *)
Definition make_callId (now : Z) (random : string) : string :=
  "call_" +:+ decimal now +:+ "_" +:+ random.

Section bootstrap.
Context {engine : JsEngine}.

(** The object [message] that a stub builds. *)
Definition call_message (interfaceName methodName : string)
    (args : list JsValue) (callId : string) : JsValue :=
  JObj [("type", JStr "JS_INTERFACE_CALL");
        ("interfaceName", JStr interfaceName);
        ("methodName", JStr methodName);
        ("args", JArr args);
        ("callId", JStr callId)].

(** One call of the stub [window.<interfaceName>.<methodName>(...args)]: the
    new window state and the promise it returns. The executor of
    [new Promise] runs before the constructor returns. A call id starts with
    [call_], so the assignment to [table[callId]] makes an own property. *)
Definition stub (interfaceName methodName : string) (args : list JsValue)
    (now : Z) (random : string) (w : Window) : Window * nat :=
  let p := List.length (promises w) in
  let callId := make_callId now random in
  let table := default ∅ (jsInterfaceCallbacks w) in
  let table := <[callId := {| callback_resolve := p; callback_reject := p |}]> table in
  let w1 := {| jsInterfaceCallbacks := Some table;
               postMessage_available := postMessage_available w;
               posted := posted w;
               promises := promises w ++ [Pending] |} in
  let message := call_message interfaceName methodName args callId in
  if postMessage_available w1 then
    ({| jsInterfaceCallbacks := jsInterfaceCallbacks w1;
        postMessage_available := postMessage_available w1;
        posted := posted w1 ++ [stringify_text message];
        promises := promises w1 |}, p)
  else
    (settle p (Rejected (ThrownError "ReactNativeWebView not available")) w1, p).

(** [window.__handleJSInterfaceResponse(response)]: the new window state, and
    whether the call returned or threw. The read [table[response.callId]]
    throws when the table is undefined, and when the call id has no
    conversion to a property key. *)
Definition handleJSInterfaceResponse (response : JavaScriptInterfaceResponse)
    (w : Window) : Window * Completion unit :=
  match jsInterfaceCallbacks w, js_String (response_callId response) with
  | None, key =>
      (w, Throw (ThrownError (engine_message
                   (ReadOfNullish JUndefined (default "" key)))))
  | Some table, None =>
      (w, Throw (ThrownError (engine_message
                   (NotPrimitive (response_callId response)))))
  | Some table, Some key =>
      match table_read table key with
      | ReadUndefined => (w, Normal tt)
      | ReadCallback callback =>
          let w1 := {| jsInterfaceCallbacks := Some (delete key table);
                       postMessage_available := postMessage_available w;
                       posted := posted w;
                       promises := promises w |} in
          if response_success response then
            (settle (callback_resolve callback)
                    (Fulfilled (default JUndefined (response_result response))) w1,
             Normal tt)
          else
            let message :=
              match response_error response with   (* error || 'Unknown error' *)
              | Some EmptyString | None => "Unknown error"
              | Some text => text
              end in
            (settle (callback_reject callback) (Rejected (ThrownError message)) w1,
             Normal tt)
      | ReadInherited =>
          (* [delete] of a property that is not the object's own does
             nothing; the call of the missing method throws *)
          (w, Throw (ThrownError (engine_message
                 (NotAFunction (if response_success response
                                then "resolve" else "reject")))))
      end
  end.

End bootstrap.

(** ** The message handler of the web view component *)

(** The [responseScript] template of [enhancedOnMessage]. *)
Definition responseScript (response_text : string) : string :=
  "
                if (window.__handleJSInterfaceResponse) {
                  window.__handleJSInterfaceResponse(" +:+ response_text +:+ ");
                }
              ".

(** The own property [prop] of an object with these properties, later
    bindings first. *)
Fixpoint own_property (prop : string) (props : list (string * JsValue))
    : option JsValue :=
  match props with
  | [] => None
  | (k, v) :: rest =>
      match own_property prop rest with
      | Some v' => Some v'
      | None => if String.eqb k prop then Some v else None
      end
  end.

(** [v.prop] without a throw, for the property names read here ([type],
    [interfaceName], [methodName], [args], [callId]), which no built-in
    prototype defines. *)
Definition property (v : JsValue) (prop : string) : JsValue :=
  match v with
  | JObj props => default JUndefined (own_property prop props)
  | _ => JUndefined
  end.

(** [data as JavaScriptInterfaceCall], destructured. *)
Definition call_of_value (data : JsValue) : JavaScriptInterfaceCall :=
  {| call_interfaceName := property data "interfaceName";
     call_methodName := property data "methodName";
     call_args := property data "args";
     call_callId := property data "callId" |}.

(** [v === text] *)
Definition strict_equals_string (v : JsValue) (text : string) : bool :=
  match v with
  | JStr s => String.eqb s text
  | _ => false
  end.

(** The response object, as [JSON.stringify] receives it. *)
Definition response_value (response : JavaScriptInterfaceResponse) : JsValue :=
  JObj ([("type", JStr (response_type response));
         ("callId", response_callId response);
         ("success", JBool (response_success response))]
        ++ match response_result response with
           | Some v => [("result", v)]
           | None => []
           end
        ++ match response_error response with
           | Some text => [("error", JStr text)]
           | None => []
           end).

(** What [enhancedOnMessage] closes over. *)
Record WebViewHost : Type := {
  jsInterfaceManager_current : option JavaScriptInterfaceManager;
  webViewRef_current : bool;      (* is the ref set *)
  onMessageProp : bool            (* did the host pass [onMessage] *)
}.

(** How control leaves the [try] statement: by its [return], or by reaching
    the statement after it. *)
Inductive Flow : Type := Returned | FellThrough.

Section message_handler.
Context {engine : JsEngine}.

(** [v.prop]: reading a property of [null] or [undefined] throws. *)
Definition get_property (v : JsValue) (prop : string) : M JsValue :=
  match v with
  | JUndefined | JNull =>
      throw (ThrownError (engine_message (ReadOfNullish v prop)))
  | _ => mret (property v prop)
  end.

Definition enhancedOnMessage (host : WebViewHost) (event_data : string) : M unit :=
  flow ← try_catch
    (data ←
       match JSON_parse event_data with
       | Some data => mret data
       | None => throw (ThrownError (engine_message (JsonSyntaxError event_data)))
       end ;
     type ← get_property data "type" ;
     match strict_equals_string type "JS_INTERFACE_CALL",
           jsInterfaceManager_current host with
     | true, Some manager =>
         response ← handleCall manager (call_of_value data) ;
         when (webViewRef_current host)
           (emit (InjectJavaScript
              (responseScript (stringify_text (response_value response))))) ;;
         mret Returned
     | _, _ => mret FellThrough
     end)
    (fun error => mret FellThrough) ;
  match flow with
  | Returned => mret tt
  | FellThrough =>
      when (onMessageProp host) (emit (OnMessageProp event_data))
  end.

End message_handler.

(** ** The rest of the web view component *)

(** The effect that keeps [jsInterfaceManager.current] in step with the
    [javaScriptInterfaces] prop. *)
Definition jsInterfaceManager_effect
    (javaScriptInterfaces : option JavaScriptInterfaceConfig)
    : option JavaScriptInterfaceManager :=
  match javaScriptInterfaces with
  | Some config => Some (constructor (Some config))
  | None => None
  end.

(** [enhancedOnLoadingFinish(event)]. The handler [onLoadingFinish] comes from
    [useWebViewLogic]; [onLoadingFinish] below is its call on the event, with
    whatever effects and completion it has. *)
Definition enhancedOnLoadingFinish (host : WebViewHost)
    (onLoadingFinish : M unit) : M unit :=
  onLoadingFinish ;;
  match jsInterfaceManager_current host, webViewRef_current host with
  | Some manager, true =>
      let interfaceScript := generateInjectionScript manager in
      match interfaceScript with
      | EmptyString => mret tt          (* if (interfaceScript) *)
      | _ => emit (InjectJavaScript interfaceScript)
      end
  | _, _ => mret tt
  end.

Section useWarnIfChanges.
(** The values of the property, compared by [===]: primitives other than
    [NaN], and the identities of objects. *)
Context {T : Type} `{EqDecision T}.

Definition warning_text (name : string) : string :=
  "Changes to property " +:+ name +:+ " do nothing after the initial render.".

(** One render of [useWarnIfChanges(value, name)]: the new [ref.current] and
    the texts given to [console.warn]. [ref] is [None] before the first
    render, in which [useRef(value)] makes the ref with [value] in it. *)
Definition useWarnIfChanges (value : T) (name : string) (ref : option T)
    : option T * list string :=
  let current := default value ref in
  if bool_decide (current ≠ value)
  then (Some value, [warning_text name])
  else (Some current, []).

(** The renders of one component, with the successive values of the
    property. *)
Fixpoint render_all (values : list T) (name : string) (ref : option T)
    : option T * list string :=
  match values with
  | [] => (ref, [])
  | value :: rest =>
      let rendered := useWarnIfChanges value name ref in
      let later := render_all rest name rendered.1 in
      (later.1, rendered.2 ++ later.2)
  end.

End useWarnIfChanges.

(** [typeof v === 'object'] *)
Definition typeof_object (v : JsValue) : bool :=
  match v with
  | JNull | JArr _ | JObj _ => true
  | _ => false
  end.

(** Whether [v] counts as true in a condition. *)
Definition truthy (v : JsValue) : bool :=
  match v with
  | JUndefined | JNull | JBool false | JNum 0 | JStr EmptyString => false
  | _ => true
  end.

(** [Object.entries(v)] of an object or an array. The properties of a [JObj]
    are listed in the order in which the engine enumerates them. *)
Definition Object_entries (v : JsValue) : list (string * JsValue) :=
  match v with
  | JObj props => props
  | JArr items => imap (λ i x, (decimal (Z.of_nat i), x)) items
  | _ => []
  end.

(** [Object.entries(currValue).map(([key, value]) => ({ name: key, value }))] *)
Definition header_list (currValue : JsValue) : JsValue :=
  JArr (List.map (λ entry, JObj [("name", JStr entry.1); ("value", entry.2)])
                 (Object_entries currValue)).

(** The value that the reducer of [newSource] stores under [currKey]. *)
Definition newSource_value (currKey : string) (currValue : JsValue) : JsValue :=
  if String.eqb currKey "headers" && truthy currValue && typeof_object currValue
  then header_list currValue
  else currValue.

(** [newSource], from the value [sourceResolved] that [resolveAssetSource]
    returned; [None] when [Object.entries] throws its TypeError, which it does
    on [null]. The object [{...prev, [currKey]: x}] has the properties of
    [prev] with [currKey] set, in place if [prev] has it and at the end
    otherwise. *)
Definition newSource (sourceResolved : JsValue) : option JsValue :=
  if typeof_object sourceResolved then
    match sourceResolved with
    | JNull => None
    | _ =>
        Some (JObj (fold_left
                      (λ prev entry,
                         JsMap.set entry.1 (newSource_value entry.1 entry.2) prev)
                      (Object_entries sourceResolved) []))
    end
  else Some sourceResolved.

(** The first statement of the bootstrap:
    [window.__jsInterfaceCallbacks = window.__jsInterfaceCallbacks || {}]. *)
Definition initialize_callbacks (w : Window) : Window :=
  {| jsInterfaceCallbacks := Some (default ∅ (jsInterfaceCallbacks w));
     postMessage_available := postMessage_available w;
     posted := posted w;
     promises := promises w |}.

(** * The vocabulary of the properties *)

(** The last element of [l] whose name is [n]. *)
Fixpoint last_named {A} (name_of : A → string) (n : string) (l : list A)
    : option A :=
  match l with
  | [] => None
  | x :: rest =>
      match last_named name_of n rest with
      | Some y => Some y
      | None => if String.eqb (name_of x) n then Some x else None
      end
  end.

Definition present {A} (o : option A) : bool :=
  match o with Some _ => true | None => false end.

(** What a configuration says about a name, in the words of the
    specification: of several interface objects with one name the last
    counts, and so does the last of several methods with one name in it. *)
Definition configured_object (config : JavaScriptInterfaceConfig)
    (interfaceName : string) : option JavaScriptInterfaceObject :=
  last_named object_name interfaceName (config_interfaces config).

Definition configured_handler (config : JavaScriptInterfaceConfig)
    (interfaceName methodName : string) : option Handler :=
  interfaceObj ← configured_object config interfaceName ;
  method_handler <$> last_named method_name methodName (object_methods interfaceObj).

(** The two lookups of the dispatcher, for string keys. *)
Definition registered_handler (this : JavaScriptInterfaceManager)
    (interfaceName methodName : string) : option Handler :=
  interfaceMap ← JsMap.get interfaceName (interfaces this) ;
  JsMap.get methodName interfaceMap.

(** The handler invocations of a trace, in order. *)
Definition handler_calls (tr : list Event) : list Event :=
  List.filter (λ e, match e with HandlerCall _ _ _ => true | _ => false end) tr.

Definition success_response (callId : JsValue) (result : JsValue)
    : JavaScriptInterfaceResponse :=
  {| response_type := "JS_INTERFACE_RESPONSE";
     response_callId := callId;
     response_success := true;
     response_result := Some result;
     response_error := None |}.

Definition failure_response (callId : JsValue) (errorMessage : string)
    : JavaScriptInterfaceResponse :=
  {| response_type := "JS_INTERFACE_RESPONSE";
     response_callId := callId;
     response_success := false;
     response_result := None;
     response_error := Some errorMessage |}.



(** The shape test of [enhancedOnMessage]:
    [data.type === 'JS_INTERFACE_CALL']. *)
Definition is_call_envelope (data : JsValue) : bool :=
  strict_equals_string (property data "type") "JS_INTERFACE_CALL".


(** A window in which nothing of the bridge has run yet. *)
Definition fresh_window (available : bool) : Window :=
  {| jsInterfaceCallbacks := None;
     postMessage_available := available;
     posted := [];
     promises := [] |}.

(** [window.__jsInterfaceCallbacks[key]] as an own property, if any. *)
Definition pending_entry (w : Window) (key : string) : option Callback :=
  table ← jsInterfaceCallbacks w ; table !! key.

(** The window with another pending table. *)
Definition with_callbacks (table : gmap string Callback) (w : Window) : Window :=
  {| jsInterfaceCallbacks := Some table;
     postMessage_available := postMessage_available w;
     posted := posted w;
     promises := promises w |}.

(** The message of [new Error(response.error || 'Unknown error')]. *)
Definition rejection_message (error : option string) : string :=
  match error with
  | Some EmptyString | None => "Unknown error"
  | Some text => text
  end.

(** What the response handler does to an entry it finds: the entry leaves
    the table and its promise is settled by the response. *)
Definition settle_entry (rejection : option string → string)
    (response : JavaScriptInterfaceResponse) (key : string)
    (table : gmap string Callback) (callback : Callback) (w : Window) : Window :=
  let w1 := with_callbacks (delete key table) w in
  if response_success response then
    settle (callback_resolve callback)
           (Fulfilled (default JUndefined (response_result response))) w1
  else
    settle (callback_reject callback)
           (Rejected (ThrownError (rejection (response_error response)))) w1.

(** The response handler as the specification words it: a rejection carries
    the error text, or [Unknown error] when the response has none, and a
    response without a pending entry changes nothing and throws nothing. *)
Definition response_handler_as_specified {engine : JsEngine}
    (response : JavaScriptInterfaceResponse) (w : Window) : Prop :=
  ∀ table, jsInterfaceCallbacks w = Some table →
    match js_String (response_callId response) with
    | Some key =>
        match table !! key with
        | Some callback =>
            handleJSInterfaceResponse response w
            = (settle_entry (default "Unknown error") response key table
                 callback w,
               Normal tt)
        | None => handleJSInterfaceResponse response w = (w, Normal tt)
        end
    | None =>
        (* no entry is pending for a call id that is no key *)
        handleJSInterfaceResponse response w = (w, Normal tt)
    end.

(** The console output of a trace, in order. *)
Definition console_events (tr : list Event) : list Event :=
  List.filter (λ e, match e with
                    | ConsoleLog _ | ConsoleError _ => true
                    | _ => false
                    end) tr.


(** How [handleCall] ends for what a handler did: with the response for a
    value, for an [Error] and for a failure value that has a string form,
    and with a TypeError for a failure value that has none. *)
Definition answer {engine : JsEngine} (callId : JsValue)
    (outcome : Completion JsValue) : Completion JavaScriptInterfaceResponse :=
  match outcome with
  | Normal value => Normal (success_response callId value)
  | Throw (ThrownError message) => Normal (failure_response callId message)
  | Throw (ThrownValue v) =>
      match js_String v with
      | Some text => Normal (failure_response callId text)
      | None => Throw (ThrownError (engine_message (NotPrimitive v)))
      end
  end.

(** How a response settles the promise of its call. *)
Definition settlement (response : JavaScriptInterfaceResponse) : PromiseState :=
  if response_success response
  then Fulfilled (default JUndefined (response_result response))
  else Rejected (ThrownError (rejection_message (response_error response))).

(** The names of a list, each at its first occurrence. *)
Fixpoint first_occurrences (names : list string) : list string :=
  match names with
  | [] => []
  | name :: rest =>
      name :: List.filter (λ other, negb (String.eqb name other))
                (first_occurrences rest)
  end.

(** How often a value differs from the one before it. *)
Fixpoint changes {T} `{EqDecision T} (previous : T) (values : list T) : nat :=
  match values with
  | [] => 0
  | value :: rest =>
      (if decide (previous = value) then 0 else 1) + changes value rest
  end.

(** An envelope is well-formed when its two names are strings and its
    arguments can be spread. *)
Definition well_formed (call : JavaScriptInterfaceCall) : bool :=
  match call_interfaceName call, call_methodName call, call_args call with
  | JStr _, JStr _, (JArr _ | JStr _) => true
  | _, _, _ => false
  end.

(** The arguments that [f(...args)] passes: the elements of an array, the
    characters of a string. *)
Definition argument_list (args : JsValue) : option (list JsValue) :=
  match args with
  | JArr items => Some items
  | JStr text => Some (string_chars text)
  | _ => None
  end.

(** The headers that a header list holds, by name and value. *)
Definition headers_of (headerList : JsValue) : list (JsValue * JsValue) :=
  match headerList with
  | JArr items =>
      List.map (λ item, (property item "name", property item "value")) items
  | _ => []
  end.

(** ** Sample data *)

Definition double_quote : string := String (ascii_of_nat 34) EmptyString.

Definition backslash : string := String (ascii_of_nat 92) EmptyString.

(** The characters of a string literal of JSON text. Of the characters that
    JSON escapes, the sample data holds only the quote and the backslash. *)
Fixpoint json_escape (s : string) : string :=
  match s with
  | EmptyString => ""
  | String c rest =>
      (if Ascii.eqb c (ascii_of_nat 34) then backslash +:+ double_quote
       else if Ascii.eqb c (ascii_of_nat 92) then backslash +:+ backslash
       else String c EmptyString) +:+ json_escape rest
  end.

(** The text [JSON.stringify] gives for a value: [undefined] has none, is
    [null] inside an array and drops its property inside an object. *)
Fixpoint json_text (v : JsValue) : option string :=
  match v with
  | JUndefined => None
  | JNull => Some "null"
  | JBool true => Some "true"
  | JBool false => Some "false"
  | JNum n => Some (decimal n)
  | JStr s => Some (double_quote +:+ json_escape s +:+ double_quote)
  | JArr items =>
      Some ("[" +:+ String.concat ","
                      (List.map (λ x, default "null" (json_text x)) items)
            +:+ "]")
  | JObj props =>
      Some ("{" +:+ String.concat ","
                      (flat_map
                         (λ kv, match json_text kv.2 with
                                | Some text =>
                                    [double_quote +:+ json_escape kv.1
                                     +:+ double_quote +:+ ":" +:+ text]
                                | None => []
                                end) props)
            +:+ "}")
  end.

(** An object whose property [toString] is the number 1, as
    [JSON.parse] makes it from the text of [{ toString: 1 }]. *)
Definition unprintable : JsValue := JObj [("toString", JNum 1)].

(** A message with the type tag of a call envelope and with an object for
    its interface name. *)
Definition unprintable_name_message : JsValue :=
  JObj [("type", JStr "JS_INTERFACE_CALL");
        ("interfaceName", unprintable);
        ("methodName", JStr "getToken");
        ("args", JArr []);
        ("callId", JStr "call_2_b")].

(** The envelopes of the calls [Android.getToken()] and
    [NativeAPI.brokenStatus()], a message with an object for its interface
    name, a value that is no envelope, and [null]: the values whose texts the
    sample engine parses. *)
Definition sample_messages : list JsValue :=
  [call_message "Android" "getToken" [] "call_1700000000000_4fzpq1x0k";
   call_message "NativeAPI" "brokenStatus" [] "call_1_a";
   unprintable_name_message;
   JObj [("type", JStr "ping")];
   JNull].

(** An engine for the examples: it serializes with [json_text], parses the
    texts of [sample_messages] and rejects every other text. The sample data
    holds no number beyond the safe integers, so that its [Number_toString]
    is never asked. *)
Definition sample_engine : JsEngine :=
  {| JSON_parse := λ text,
       List.find (λ v, String.eqb (default "" (json_text v)) text) sample_messages;
     JSON_stringify := json_text;
     Number_toString := decimal;
     engine_message := λ e,
       match e with
       | JsonSyntaxError _ => "JSON Parse error"
       | ReadOfNullish _ prop => "Cannot read property '" +:+ prop +:+ "'"
       | NotIterable _ => "Spread syntax requires an iterable"
       | NotAFunction prop => prop +:+ " is not a function"
       | NotPrimitive _ => "Cannot convert object to primitive value"
       end |}.

Definition getToken : Handler := λ _, Returns (JStr "abc").

Definition openCamera : Handler := λ _, Rejects (ThrownError "Camera unavailable").

Definition legacyStatus : Handler := λ _, Throws (ThrownValue (JNum 404)).

(** A handler that throws a value which is no Error and has no string
    form. *)
Definition brokenStatus : Handler := λ _, Throws (ThrownValue unprintable).

(** The configuration of the specification's example, with a second
    interface whose handlers fail. *)
Definition sample_config : JavaScriptInterfaceConfig :=
  {| config_interfaces :=
       [{| object_name := "Android";
           object_methods :=
             [{| method_name := "getToken"; method_handler := getToken |}] |};
        {| object_name := "NativeAPI";
           object_methods :=
             [{| method_name := "openCamera"; method_handler := openCamera |};
              {| method_name := "legacyStatus"; method_handler := legacyStatus |};
              {| method_name := "brokenStatus"; method_handler := brokenStatus |}] |}];
     config_enableDebugLogging := None |}.

Definition sample_manager : JavaScriptInterfaceManager :=
  constructor (Some sample_config).

(** The same interfaces, with debug logging on. *)
Definition debug_manager : JavaScriptInterfaceManager :=
  constructor (Some {| config_interfaces := config_interfaces sample_config;
                       config_enableDebugLogging := Some true |}).

(** A source with a URI and two headers. *)
Definition sample_source : list (string * JsValue) :=
  [("uri", JStr "https://example.com/");
   ("headers", JObj [("Accept", JStr "text/html"); ("X-Token", JStr "abc")])].

(** A window with one call in flight: [Android.getToken()] was called and
    its envelope posted. *)
Definition window_with_pending_call : Window :=
  (stub (engine := sample_engine) "Android" "getToken" []
     1700000000000 "4fzpq1x0k" (fresh_window true)).1.

(** * Properties *)

(** ** Insertion-ordered maps *)

Section JsMap_facts.
Context {V : Type}.
Implicit Types (m : JsMap.t V) (k : string) (v : V).

Lemma JsMap_has_get k m :
  JsMap.has k m = match JsMap.get k m with Some _ => true | None => false end.
Proof.
  induction m as [|[k0 v0] rest IH]; simpl; [done|].
  by destruct (String.eqb k0 k).
Qed.

Lemma JsMap_has_keys k m : JsMap.has k m = true ↔ k ∈ JsMap.keys m.
Proof.
  induction m as [|[k0 v0] rest IH]; simpl.
  - split; [done | by intros ?%elem_of_nil].
  - rewrite elem_of_cons. destruct (String.eqb_spec k0 k) as [->|Hne].
    + split; auto.
    + rewrite IH. split; [auto | intros [?|?]; congruence].
Qed.

Lemma JsMap_get_set k k' v m :
  JsMap.get k' (JsMap.set k v m)
  = if String.eqb k k' then Some v else JsMap.get k' m.
Proof.
  induction m as [|[k0 v0] rest IH]; simpl; [done|].
  destruct (String.eqb_spec k0 k) as [->|Hne]; simpl.
  - by destruct (String.eqb k k').
  - rewrite IH. destruct (String.eqb_spec k0 k') as [->|Hne'];
      destruct (String.eqb_spec k k'); congruence.
Qed.

Lemma JsMap_keys_set k v m :
  JsMap.keys (JsMap.set k v m)
  = if JsMap.has k m then JsMap.keys m else JsMap.keys m ++ [k].
Proof.
  induction m as [|[k0 v0] rest IH]; simpl; [done|].
  destruct (String.eqb k0 k); simpl; [done|].
  rewrite IH. by destruct (JsMap.has k rest).
Qed.

Lemma JsMap_NoDup_set k v m :
  NoDup (JsMap.keys m) → NoDup (JsMap.keys (JsMap.set k v m)).
Proof.
  intros Hm. rewrite JsMap_keys_set.
  destruct (JsMap.has k m) eqn:Hhas; [done|].
  apply NoDup_app. split_and!; [done | | apply NoDup_singleton].
  intros x Hx ->%list_elem_of_singleton.
  apply JsMap_has_keys in Hx. congruence.
Qed.

Lemma JsMap_Forall_set (P : V → Prop) k v m :
  P v → Forall (λ entry, P entry.2) m →
  Forall (λ entry, P entry.2) (JsMap.set k v m).
Proof.
  intros Hv. induction 1 as [|[k0 v0] rest H0 Hrest IH]; simpl.
  - by constructor.
  - destruct (String.eqb k0 k); constructor; auto.
Qed.

Lemma JsMap_key_has_value k m :
  k ∈ JsMap.keys m → is_Some (JsMap.get k m).
Proof.
  intros Hk%JsMap_has_keys. rewrite JsMap_has_get in Hk.
  by destruct (JsMap.get k m).
Qed.

End JsMap_facts.

(** ** Folding [set] over a list: the later entry wins *)

Section fold_set.
Context {A V : Type} (name_of : A → string) (value_of : A → V).

Let install (m : JsMap.t V) (x : A) : JsMap.t V :=
  JsMap.set (name_of x) (value_of x) m.

Lemma JsMap_get_fold k (l : list A) (init : JsMap.t V) :
  JsMap.get k (fold_left install l init)
  = match last_named name_of k l with
    | Some x => Some (value_of x)
    | None => JsMap.get k init
    end.
Proof.
  revert init. induction l as [|x rest IH]; intros init; simpl; [done|].
  rewrite IH. destruct (last_named name_of k rest); [done|].
  unfold install. rewrite JsMap_get_set.
  by destruct (String.eqb (name_of x) k).
Qed.

Lemma JsMap_NoDup_fold (l : list A) (init : JsMap.t V) :
  NoDup (JsMap.keys init) → NoDup (JsMap.keys (fold_left install l init)).
Proof.
  revert init. induction l as [|x rest IH]; intros init Hinit; simpl; [done|].
  apply IH. by apply JsMap_NoDup_set.
Qed.

Lemma JsMap_Forall_fold (P : V → Prop) (l : list A) (init : JsMap.t V) :
  (∀ x, P (value_of x)) →
  Forall (λ entry, P entry.2) init →
  Forall (λ entry, P entry.2) (fold_left install l init).
Proof.
  intros HP. revert init.
  induction l as [|x rest IH]; intros init Hinit; simpl; [done|].
  apply IH. by apply JsMap_Forall_set.
Qed.

End fold_set.

(** ** The registry after [configure] *)

Lemma build_methodMap_get methods methodName :
  JsMap.get methodName (build_methodMap methods)
  = method_handler <$> last_named method_name methodName methods.
Proof.
  unfold build_methodMap.
  rewrite (JsMap_get_fold method_name method_handler). simpl.
  by destruct (last_named method_name methodName methods).
Qed.

Lemma build_methodMap_NoDup methods : NoDup (JsMap.keys (build_methodMap methods)).
Proof.
  unfold build_methodMap.
  apply (JsMap_NoDup_fold method_name method_handler). apply NoDup_nil_2.
Qed.

Lemma configure_get config this interfaceName :
  JsMap.get interfaceName (interfaces (configure config this))
  = (λ o, build_methodMap (object_methods o)) <$> configured_object config interfaceName.
Proof.
  unfold configure, configured_object. simpl.
  rewrite (JsMap_get_fold object_name (λ o, build_methodMap (object_methods o))).
  simpl. by destruct (last_named _ _ _).
Qed.

(** C5. [configure] discards whatever the registry held and installs the
    interfaces and methods of the configuration: the result does not depend
    on the prior state, [hasInterface], [hasMethod] and the handler that a
    lookup finds are those of the last interface object with that name and of
    the last method with that name in it, and no name occurs twice among the
    keys of the registry or of one of its method maps. *)
Theorem configure_replaces_registry (config : JavaScriptInterfaceConfig)
    (this : JavaScriptInterfaceManager) :
  let this' := configure config this in
  this' = configure config new_manager
  ∧ (∀ n, hasInterface this' n = present (configured_object config n))
  ∧ (∀ i m, hasMethod this' i m = present (configured_handler config i m))
  ∧ (∀ i m, registered_handler this' i m = configured_handler config i m)
  ∧ NoDup (getInterfaceNames this')
  ∧ Forall (λ entry, NoDup (JsMap.keys entry.2)) (interfaces this').
Proof.
  intros this'. split_and!.
  - done.
  - intros n. unfold hasInterface. rewrite JsMap_has_get.
    subst this'. rewrite configure_get.
    by destruct (configured_object config n).
  - intros i m. unfold hasMethod, configured_handler.
    subst this'. rewrite configure_get.
    destruct (configured_object config i) as [o|]; simpl; [|done].
    rewrite JsMap_has_get, build_methodMap_get.
    by destruct (last_named method_name m (object_methods o)).
  - intros i m. unfold registered_handler, configured_handler.
    subst this'. rewrite configure_get.
    destruct (configured_object config i) as [o|]; simpl; [|done].
    apply build_methodMap_get.
  - subst this'. unfold getInterfaceNames, configure. simpl.
    apply (JsMap_NoDup_fold object_name (λ o, build_methodMap (object_methods o))).
    apply NoDup_nil_2.
  - subst this'. unfold configure. simpl.
    apply (JsMap_Forall_fold object_name
             (λ o, build_methodMap (object_methods o))
             (λ methodMap, NoDup (JsMap.keys methodMap))).
    + intros o. apply build_methodMap_NoDup.
    + constructor.
Qed.

(** ** The dispatcher *)

(** The completion and the trace of the monad operations. *)
Lemma completion_bind {A B} (m : M A) (k : A → M B) :
  completion (m ≫= k)
  = match completion m with
    | Normal a => completion (k a)
    | Throw t => Throw t
    end.
Proof. unfold mbind, M_bind. by destruct (completion m). Qed.

Lemma trace_bind {A B} (m : M A) (k : A → M B) :
  trace (m ≫= k)
  = trace m ++ match completion m with
               | Normal a => trace (k a)
               | Throw t => []
               end.
Proof.
  unfold mbind, M_bind. destruct (completion m); simpl; [done|].
  by rewrite app_nil_r.
Qed.

Lemma completion_try_catch {A} (body : M A) (handler : Thrown → M A) :
  completion (try_catch body handler)
  = match completion body with
    | Normal a => Normal a
    | Throw t => completion (handler t)
    end.
Proof. unfold try_catch. by destruct (completion body) eqn:E. Qed.

Lemma trace_try_catch {A} (body : M A) (handler : Thrown → M A) :
  trace (try_catch body handler)
  = trace body ++ match completion body with
                  | Normal a => []
                  | Throw t => trace (handler t)
                  end.
Proof.
  unfold try_catch. destruct (completion body); simpl; [|done].
  by rewrite app_nil_r.
Qed.

Lemma completion_when_emit (b : bool) (e : Event) :
  completion (when b (emit e)) = Normal tt.
Proof. by destruct b. Qed.

Lemma trace_when_emit (b : bool) (e : Event) :
  trace (when b (emit e)) = if b then [e] else [].
Proof. by destruct b. Qed.

Ltac m_simpl :=
  repeat (rewrite ?completion_bind, ?completion_try_catch, ?completion_when_emit,
            ?trace_bind, ?trace_try_catch, ?trace_when_emit; simpl).

(** One case distinction on the way through [handleCall]: a lookup, the
    spread of the arguments, what the handler did, the conversion of a failure
    value. *)
Ltac handleCall_case :=
  match goal with
  | |- context [Map_get_any ?key ?m] => destruct (Map_get_any key m) eqn:?
  | |- context [spread ?args] => unfold spread; destruct args
  | |- context [settled ?outcome] => destruct (settled outcome) as [?|[?|?]]
  | |- context [js_String ?v] => destruct (js_String v) eqn:?
  | |- context [match ?error with ThrownError _ => _ | ThrownValue _ => _ end] =>
      is_var error; destruct error
  end.

Section dispatcher_facts.
Context {engine : JsEngine}.

Lemma hasInterface_false this i :
  hasInterface this i = false → JsMap.get i (interfaces this) = None.
Proof.
  unfold hasInterface. rewrite JsMap_has_get.
  by destruct (JsMap.get i (interfaces this)).
Qed.

Lemma hasInterface_true this i :
  hasInterface this i = true → ∃ interfaceMap, JsMap.get i (interfaces this) = Some interfaceMap.
Proof.
  unfold hasInterface. rewrite JsMap_has_get.
  destruct (JsMap.get i (interfaces this)); [eauto | done].
Qed.

(** C1. For an envelope that names a registered interface and a method
    registered on it, [handleCall] calls that handler once, with the argument
    list of the envelope, and when the handler produces a value (by returning
    it or through the promise it returned) the response is a success that
    carries exactly this value. *)
Theorem handleCall_registered_success (this : JavaScriptInterfaceManager)
    (interfaceName methodName : string) (args : list JsValue) (callId : string)
    (handler : Handler) (value : JsValue) :
  registered_handler this interfaceName methodName = Some handler →
  settled (handler args) = Normal value →
  let run := handleCall this (envelope interfaceName methodName args callId) in
  completion run = Normal (success_response (JStr callId) value)
  ∧ handler_calls (trace run)
    = [HandlerCall (JStr interfaceName) (JStr methodName) args].
Proof.
  unfold registered_handler. intros Hreg Hvalue.
  destruct (JsMap.get interfaceName (interfaces this)) as [interfaceMap|] eqn:Hi;
    simpl in Hreg; [|done].
  unfold handleCall, try_catch, await_handler, envelope, when.
  destruct (enableDebugLogging this);
    repeat (simpl; rewrite ?Hi, ?Hreg, ?Hvalue); done.
Qed.

(** C2. For an envelope whose interface name is not in the registry,
    [handleCall] answers with a failure whose error is
    [Interface '<name>' not found], and it calls no handler. *)
Theorem handleCall_unknown_interface (this : JavaScriptInterfaceManager)
    (interfaceName methodName : string) (args : list JsValue) (callId : string) :
  hasInterface this interfaceName = false →
  let run := handleCall this (envelope interfaceName methodName args callId) in
  completion run
  = Normal (failure_response (JStr callId)
              ("Interface '" +:+ interfaceName +:+ "' not found"))
  ∧ handler_calls (trace run) = [].
Proof.
  intros Hi%hasInterface_false.
  unfold handleCall, try_catch, envelope, when.
  destruct (enableDebugLogging this); repeat (simpl; rewrite ?Hi); done.
Qed.

(** C3. For an envelope whose interface is in the registry but whose method
    is not registered on it, [handleCall] answers with a failure whose error
    is [Method '<name>' not found on interface '<name>'], and it calls no
    handler. *)
Theorem handleCall_unknown_method (this : JavaScriptInterfaceManager)
    (interfaceName methodName : string) (args : list JsValue) (callId : string) :
  hasInterface this interfaceName = true →
  hasMethod this interfaceName methodName = false →
  let run := handleCall this (envelope interfaceName methodName args callId) in
  completion run
  = Normal (failure_response (JStr callId)
              ("Method '" +:+ methodName +:+ "' not found on interface '"
               +:+ interfaceName +:+ "'"))
  ∧ handler_calls (trace run) = [].
Proof.
  intros [interfaceMap Hi]%hasInterface_true Hm.
  unfold hasMethod in Hm. rewrite Hi, JsMap_has_get in Hm.
  destruct (JsMap.get methodName interfaceMap) eqn:Hget; [done|].
  unfold handleCall, try_catch, envelope, when.
  destruct (enableDebugLogging this); repeat (simpl; rewrite ?Hi, ?Hget); done.
Qed.

(** However [handleCall] ends, it ends with a success or a failure for the
    call id of the envelope, or with the TypeError of a value that has no
    conversion to a string. *)
Lemma handleCall_completes (this : JavaScriptInterfaceManager)
    (call : JavaScriptInterfaceCall) :
  (∃ result,
     completion (handleCall this call)
     = Normal (success_response (call_callId call) result))
  ∨ (∃ errorMessage,
     completion (handleCall this call)
     = Normal (failure_response (call_callId call) errorMessage))
  ∨ (∃ v,
     js_String v = None
     ∧ completion (handleCall this call)
       = Throw (ThrownError (engine_message (NotPrimitive v)))).
Proof.
  unfold handleCall, to_string, await_handler.
  destruct (js_String (call_interfaceName call)) as [interfaceText|] eqn:Hi;
    destruct (js_String (call_methodName call)) as [methodText|] eqn:Hm;
    destruct (enableDebugLogging this); m_simpl; eauto 6.
  all: repeat (m_simpl; eauto 6; handleCall_case).
Qed.


(** C10. Every response that [handleCall] returns has the type tag
    [JS_INTERFACE_RESPONSE] and the call id of the envelope; a success
    carries a result and no error, a failure an error and no result. *)
Theorem handleCall_response_shape (this : JavaScriptInterfaceManager)
    (call : JavaScriptInterfaceCall) (response : JavaScriptInterfaceResponse) :
  completion (handleCall this call) = Normal response →
  response_type response = "JS_INTERFACE_RESPONSE"
  ∧ response_callId response = call_callId call
  ∧ if response_success response
    then is_Some (response_result response) ∧ response_error response = None
    else is_Some (response_error response) ∧ response_result response = None.
Proof.
  intros Hreturned.
  destruct (handleCall_completes this call)
    as [[result Hdone]|[[errorMessage Hdone]|(v & _ & Hdone)]];
    rewrite Hdone in Hreturned; simplify_eq; simpl; eauto.
Qed.

End dispatcher_facts.

(** ** The bootstrap generator *)

Lemma string_app_empty (s1 s2 : string) : s1 +:+ s2 = "" → s1 = "".
Proof. by destruct s1. Qed.

(** X16. [generateInjectionScript] returns the empty string exactly when the
    registry has no interface. *)
Theorem generateInjectionScript_empty_iff (this : JavaScriptInterfaceManager) :
  generateInjectionScript this = "" ↔ getInterfaceNames this = [].
Proof.
  unfold generateInjectionScript, getInterfaceNames.
  destruct (JsMap.keys (interfaces this)) as [|k ks]; simpl; [done|].
  split; [|done]. by intros ?%string_app_empty.
Qed.

(** ** The message handler *)

Section message_handler_facts.
Context {engine : JsEngine}.






End message_handler_facts.

(** ** The code of the bootstrap *)

Section bootstrap_facts.
Context {engine : JsEngine}.

Lemma settle_pending_last (ps : list PromiseState) (outcome : PromiseState)
    table available sent :
  settle (List.length ps) outcome
    {| jsInterfaceCallbacks := table; postMessage_available := available;
       posted := sent; promises := ps ++ [Pending] |}
  = {| jsInterfaceCallbacks := table; postMessage_available := available;
       posted := sent; promises := ps ++ [outcome] |}.
Proof.
  unfold settle. simpl. rewrite list_lookup_middle by done.
  f_equal. rewrite insert_app_r_alt by done.
  by rewrite Nat.sub_diag.
Qed.

(** A stub that finds no [postMessage] rejects its promise at once and posts
    nothing, and the entry it stored for the call stays in the pending
    table. *)
Lemma stub_without_transport interfaceName methodName args now random w :
  postMessage_available w = false →
  let w' := (stub interfaceName methodName args now random w).1 in
  let p := (stub interfaceName methodName args now random w).2 in
  promises w' !! p
  = Some (Rejected (ThrownError "ReactNativeWebView not available"))
  ∧ posted w' = posted w
  ∧ pending_entry w' (make_callId now random)
    = Some {| callback_resolve := p; callback_reject := p |}.
Proof.
  intros Hoff. unfold stub. simpl. rewrite Hoff. simpl.
  rewrite settle_pending_last. simpl. split_and!.
  - by rewrite list_lookup_middle.
  - done.
  - unfold pending_entry. simpl. apply lookup_insert_eq.
Qed.

End bootstrap_facts.

(** C8, on the code. The stub [Android.getToken()] is called in a window
    without [window.ReactNativeWebView]: the promise is rejected with the
    error [ReactNativeWebView not available] and no message is posted, but the
    pending table still holds the entry of the call afterwards. *)
Theorem stub_without_transport_keeps_entry :
  let w := (stub (engine := sample_engine) "Android" "getToken" []
              1700000000000 "4fzpq1x0k" (fresh_window false)).1 in
  promises w !! 0
  = Some (Rejected (ThrownError "ReactNativeWebView not available"))
  ∧ posted w = []
  ∧ pending_entry w "call_1700000000000_4fzpq1x0k"
    = Some {| callback_resolve := 0; callback_reject := 0 |}.
Proof.
  exact (stub_without_transport (engine := sample_engine)
           "Android" "getToken" [] 1700000000000 "4fzpq1x0k"
           (fresh_window false) eq_refl).
Qed.

Section response_handler_facts.
Context {engine : JsEngine}.

Lemma settle_keeps_callbacks p outcome w :
  jsInterfaceCallbacks (settle p outcome w) = jsInterfaceCallbacks w.
Proof. unfold settle. by destruct (promises w !! p) as [[| |]|]. Qed.

Lemma handleJSInterfaceResponse_no_entry response w table key :
  jsInterfaceCallbacks w = Some table →
  js_String (response_callId response) = Some key →
  table !! key = None →
  inherited key = false →
  handleJSInterfaceResponse response w = (w, Normal tt).
Proof.
  intros Htable Hid Hnone Hown. unfold handleJSInterfaceResponse, table_read.
  by rewrite Htable, Hid, Hnone, Hown.
Qed.

Lemma handleJSInterfaceResponse_entry response w table key callback :
  jsInterfaceCallbacks w = Some table →
  js_String (response_callId response) = Some key →
  table !! key = Some callback →
  handleJSInterfaceResponse response w
  = (settle_entry rejection_message response key table callback w, Normal tt).
Proof.
  intros Htable Hid Hkey.
  unfold handleJSInterfaceResponse, table_read, settle_entry, rejection_message.
  rewrite Htable, Hid, Hkey. by destruct (response_success response).
Qed.

Lemma settle_entry_removes rejection response key table callback w :
  pending_entry (settle_entry rejection response key table callback w) key = None.
Proof.
  unfold pending_entry, settle_entry.
  destruct (response_success response); rewrite settle_keeps_callbacks; simpl;
    apply lookup_delete_eq.
Qed.

(** C9, as amended. Once the pending table exists, and for a call id that is
    a string or has a string form [key], a response whose call id has an
    entry removes the entry and settles its promise: fulfilled with the
    result when [success] is true, rejected otherwise with an Error whose
    message is the error text, or [Unknown error] when that text is absent or
    empty. A response whose call id has no entry, and is not the name of a
    member of [Object.prototype], leaves the window as it is and throws
    nothing. For such call ids an entry is therefore settled at most once:
    delivering the same response again changes nothing. *)
Theorem handleJSInterfaceResponse_settles_once
    (response : JavaScriptInterfaceResponse) (w : Window)
    (table : gmap string Callback) (key : string) :
  jsInterfaceCallbacks w = Some table →
  js_String (response_callId response) = Some key →
  let after := (handleJSInterfaceResponse response w).1 in
  match table !! key with
  | Some callback =>
      handleJSInterfaceResponse response w
      = (settle_entry rejection_message response key table callback w, Normal tt)
      ∧ pending_entry after key = None
  | None =>
      inherited key = false →
      handleJSInterfaceResponse response w = (w, Normal tt)
  end
  ∧ (inherited key = false →
     handleJSInterfaceResponse response after = (after, Normal tt)).
Proof.
  intros Htable Hid after. subst after.
  destruct (table !! key) as [callback|] eqn:Hkey.
  - rewrite (handleJSInterfaceResponse_entry _ _ _ _ _ Htable Hid Hkey).
    split; [split; [done | apply settle_entry_removes]|].
    intros Hown. simpl.
    assert (jsInterfaceCallbacks
              (settle_entry rejection_message response key table callback w)
            = Some (delete key table)) as Hafter.
    { unfold settle_entry.
      destruct (response_success response); by rewrite settle_keeps_callbacks. }
    apply (handleJSInterfaceResponse_no_entry _ _ _ _ Hafter Hid);
      [apply lookup_delete_eq | done].
  - assert (inherited key = false →
            handleJSInterfaceResponse response w = (w, Normal tt)) as Hnone.
    { intros Hown. by apply (handleJSInterfaceResponse_no_entry _ _ table key). }
    split; [done|]. intros Hown. rewrite (Hnone Hown). simpl. by apply Hnone.
Qed.

End response_handler_facts.

(** The call ids that stubs make are not names of [Object.prototype]. *)
Lemma make_callId_not_inherited (now : Z) (random : string) :
  inherited (make_callId now random) = false.
Proof. reflexivity. Qed.

Section round_trip.
Context {engine : JsEngine}.

(** X9. A call and its response: the stub posts the text of its envelope
    and returns a pending promise; the response with the call id of the
    envelope settles this promise, by its success flag, result and error
    text, and takes the entry out of the pending table. *)
Lemma stub_settled_by_response interfaceName methodName args now random w
    (response : JavaScriptInterfaceResponse) :
  postMessage_available w = true →
  response_callId response = JStr (make_callId now random) →
  let called := stub interfaceName methodName args now random w in
  let answered := handleJSInterfaceResponse response called.1 in
  posted called.1
  = posted w ++ [stringify_text
                   (call_message interfaceName methodName args
                      (make_callId now random))]
  ∧ promises called.1 !! called.2 = Some Pending
  ∧ answered.2 = Normal tt
  ∧ promises answered.1 !! called.2
    = Some (if response_success response
            then Fulfilled (default JUndefined (response_result response))
            else Rejected (ThrownError
                             (rejection_message (response_error response))))
  ∧ pending_entry answered.1 (make_callId now random) = None.
Proof.
  intros Hon Hid called answered.
  assert (called.2 = List.length (promises w)) as Hp.
  { subst called. unfold stub. simpl. by rewrite Hon. }
  assert (jsInterfaceCallbacks called.1
          = Some (<[make_callId now random :=
                      {| callback_resolve := List.length (promises w);
                         callback_reject := List.length (promises w) |}]>
                    (default ∅ (jsInterfaceCallbacks w)))
          ∧ promises called.1 = promises w ++ [Pending]) as [Htable Hpromises].
  { subst called. unfold stub. simpl. by rewrite Hon. }
  set (entry := {| callback_resolve := List.length (promises w);
                   callback_reject := List.length (promises w) |}) in *.
  set (table := <[make_callId now random := entry]>
                  (default ∅ (jsInterfaceCallbacks w))) in *.
  assert (answered
          = (settle_entry rejection_message response (make_callId now random)
               table entry called.1,
             Normal tt)) as Hfirst.
  { subst answered.
    apply (handleJSInterfaceResponse_entry _ _ table _ entry Htable);
      [by rewrite Hid | apply lookup_insert_eq]. }
  rewrite Hp. split_and!.
  - subst called. unfold stub. simpl. by rewrite Hon.
  - rewrite Hpromises. by apply list_lookup_middle.
  - by rewrite Hfirst.
  - rewrite Hfirst. simpl. unfold settle_entry, with_callbacks. simpl.
    rewrite Hpromises.
    destruct (response_success response); rewrite settle_pending_last; simpl;
      by apply list_lookup_middle.
  - rewrite Hfirst. apply settle_entry_removes.
Qed.

End round_trip.

(** C9, as stated, fails on the code in three ways. The handler of the call
    in flight fails with an empty message: the promise is rejected with
    [Unknown error], not with the empty error text of the response. A
    response whose call id is [constructor], for which no call is pending,
    makes the response handler throw. And so does a response whose call id
    is an object with a [toString] property of its own, which has no
    conversion to a property key. *)
Lemma response_handler_not_as_specified :
  ¬ response_handler_as_specified (engine := sample_engine)
      (failure_response (JStr "call_1700000000000_4fzpq1x0k") "")
      window_with_pending_call
  ∧ ¬ response_handler_as_specified (engine := sample_engine)
        (success_response (JStr "constructor") (JStr "abc"))
        window_with_pending_call
  ∧ ¬ response_handler_as_specified (engine := sample_engine)
        (success_response unprintable (JStr "abc"))
        window_with_pending_call.
Proof.
  split_and!; intros Hspec.
  - specialize (Hspec _ eq_refl).
    apply (f_equal (λ r, promises r.1)) in Hspec.
    vm_compute in Hspec. discriminate.
  - specialize (Hspec _ eq_refl).
    apply (f_equal snd) in Hspec.
    vm_compute in Hspec. discriminate.
  - specialize (Hspec _ eq_refl).
    apply (f_equal snd) in Hspec.
    vm_compute in Hspec. discriminate.
Qed.

(** The amended statement at the call in flight, answered by a failure with
    an empty error text: the promise is rejected with [Unknown error], the
    entry is gone, and the same response delivered again changes nothing. *)
Lemma handleJSInterfaceResponse_settles_once_witness :
  let callId := "call_1700000000000_4fzpq1x0k" in
  let entry := {| callback_resolve := 0; callback_reject := 0 |} in
  let response := failure_response (JStr callId) "" in
  let answered :=
    handleJSInterfaceResponse (engine := sample_engine) response
      window_with_pending_call in
  jsInterfaceCallbacks window_with_pending_call = Some {[ callId := entry ]}
  ∧ answered.2 = Normal tt
  ∧ promises answered.1 = [Rejected (ThrownError "Unknown error")]
  ∧ pending_entry answered.1 callId = None
  ∧ handleJSInterfaceResponse (engine := sample_engine) response answered.1
    = (answered.1, Normal tt).
Proof.
  intros callId entry response answered.
  pose proof (handleJSInterfaceResponse_settles_once (engine := sample_engine)
                response window_with_pending_call {[ callId := entry ]} callId
                eq_refl eq_refl)
    as [Hfirst Hagain].
  change (({[ callId := entry ]} : gmap string Callback) !! callId)
    with (Some entry) in Hfirst.
  destruct Hfirst as [Hfirst Hgone].
  split_and!.
  - reflexivity.
  - exact (f_equal snd Hfirst).
  - exact (f_equal (λ r, promises r.1) Hfirst).
  - exact Hgone.
  - exact (Hagain eq_refl).
Defined.

(** * The properties on the sample data *)

(** The example of the specification: [Android.getToken()] answers [abc]. *)
Lemma handleCall_registered_success_witness :
  let run := handleCall (engine := sample_engine) sample_manager
               (envelope "Android" "getToken" [] "call_1700000000000_4fzpq1x0k") in
  completion run
  = Normal (success_response (JStr "call_1700000000000_4fzpq1x0k") (JStr "abc"))
  ∧ handler_calls (trace run)
    = [HandlerCall (JStr "Android") (JStr "getToken") []].
Proof.
  exact (handleCall_registered_success (engine := sample_engine) sample_manager
           "Android" "getToken" [] "call_1700000000000_4fzpq1x0k"
           getToken (JStr "abc") eq_refl eq_refl).
Defined.

(** An interface name that is also the name of a built-in is not found. *)
Lemma handleCall_unknown_interface_witness :
  let run := handleCall (engine := sample_engine) sample_manager
               (envelope "constructor" "getToken" [] "call_1_a") in
  completion run
  = Normal (failure_response (JStr "call_1_a") "Interface 'constructor' not found")
  ∧ handler_calls (trace run) = [].
Proof.
  exact (handleCall_unknown_interface (engine := sample_engine) sample_manager
           "constructor" "getToken" [] "call_1_a" eq_refl).
Defined.

Lemma handleCall_unknown_method_witness :
  let run := handleCall (engine := sample_engine) sample_manager
               (envelope "Android" "missing" [] "call_1_a") in
  completion run
  = Normal (failure_response (JStr "call_1_a")
              "Method 'missing' not found on interface 'Android'")
  ∧ handler_calls (trace run) = [].
Proof.
  exact (handleCall_unknown_method (engine := sample_engine) sample_manager
           "Android" "missing" [] "call_1_a" eq_refl eq_refl).
Defined.

(** C4, on the code. The handler [NativeAPI.brokenStatus] throws an object
    whose property [toString] is not a function. The [catch] clause of
    [handleCall] converts what was thrown with [String(error)]; the
    conversion throws a TypeError, and [handleCall] ends with it: it has
    called the handler, and it raises instead of answering with a failure.
    With debug logging on, a call whose interface name is such an object
    raises before the [try] is entered, in the template of the first log. *)
Theorem handleCall_raises_on_unprintable_failure :
  let run := handleCall (engine := sample_engine) sample_manager
               (envelope "NativeAPI" "brokenStatus" [] "call_1_a") in
  let logged := handleCall (engine := sample_engine) debug_manager
                  (call_of_value unprintable_name_message) in
  completion run = Throw (ThrownError "Cannot convert object to primitive value")
  ∧ trace run = [HandlerCall (JStr "NativeAPI") (JStr "brokenStatus") []]
  ∧ completion logged
    = Throw (ThrownError "Cannot convert object to primitive value")
  ∧ trace logged = [].
Proof. by vm_compute. Qed.

(** C7, on the code. The page calls [NativeAPI.brokenStatus()]: the message
    has the shape of a call envelope and is handed to the dispatcher, which
    calls the handler and then raises; the [catch] clause of
    [enhancedOnMessage] takes this for a message that is no call, hands the
    message to [onMessage] and injects no response. With debug logging on,
    a message whose interface name is an object with a [toString] property
    goes the same way before any lookup. *)
Theorem enhancedOnMessage_hands_call_to_onMessage :
  let host manager := {| jsInterfaceManager_current := Some manager;
                         webViewRef_current := true;
                         onMessageProp := true |} in
  let call_text :=
    stringify_text (engine := sample_engine)
      (call_message "NativeAPI" "brokenStatus" [] "call_1_a") in
  let name_text :=
    stringify_text (engine := sample_engine) unprintable_name_message in
  is_call_envelope (call_message "NativeAPI" "brokenStatus" [] "call_1_a") = true
  ∧ trace (enhancedOnMessage (engine := sample_engine)
             (host sample_manager) call_text)
    = [HandlerCall (JStr "NativeAPI") (JStr "brokenStatus") [];
       OnMessageProp call_text]
  ∧ is_call_envelope unprintable_name_message = true
  ∧ trace (enhancedOnMessage (engine := sample_engine)
             (host debug_manager) name_text)
    = [OnMessageProp name_text].
Proof. by vm_compute. Qed.


(** The shape of the response to [Android.getToken()]. *)
Lemma handleCall_response_shape_witness :
  let call := envelope "Android" "getToken" [] "call_1700000000000_4fzpq1x0k" in
  let response :=
    success_response (JStr "call_1700000000000_4fzpq1x0k") (JStr "abc") in
  completion (handleCall (engine := sample_engine) sample_manager call)
  = Normal response
  ∧ response_type response = "JS_INTERFACE_RESPONSE"
  ∧ response_callId response = call_callId call
  ∧ is_Some (response_result response) ∧ response_error response = None.
Proof.
  intros call response. split; [reflexivity|].
  exact (handleCall_response_shape (engine := sample_engine) sample_manager
           call response eq_refl).
Defined.

(** Reconfiguring replaces the registry: the interfaces of the sample are
    gone, and of two entries with one name the later one is installed. *)
Example configure_later_entry_wins :
  let config :=
    {| config_interfaces :=
         [{| object_name := "iOS";
             object_methods :=
               [{| method_name := "status"; method_handler := getToken |};
                {| method_name := "status"; method_handler := legacyStatus |}] |};
          {| object_name := "iOS";
             object_methods :=
               [{| method_name := "camera"; method_handler := openCamera |}] |}];
       config_enableDebugLogging := Some true |} in
  let this := configure config sample_manager in
  getInterfaceNames this = ["iOS"]
  ∧ hasInterface this "Android" = false
  ∧ hasMethod this "iOS" "status" = false
  ∧ hasMethod this "iOS" "camera" = true.
Proof. by vm_compute. Qed.

(** Text that is no JSON, and JSON that is no envelope, go to [onMessage];
    an envelope is dispatched and its response injected. *)
Example enhancedOnMessage_routes :
  let host := {| jsInterfaceManager_current := Some sample_manager;
                 webViewRef_current := true;
                 onMessageProp := true |} in
  trace (enhancedOnMessage (engine := sample_engine) host "hello") = [OnMessageProp "hello"]
  ∧ trace (enhancedOnMessage (engine := sample_engine) host "null") = [OnMessageProp "null"]
  ∧ List.map (λ e, match e with
                   | HandlerCall (JStr i) (JStr m) _ => i +:+ "." +:+ m
                   | InjectJavaScript _ => "injectJavaScript"
                   | OnMessageProp _ => "onMessage"
                   | _ => "console"
                   end)
      (trace (enhancedOnMessage (engine := sample_engine) host
                (stringify_text (engine := sample_engine)
                   (call_message "Android" "getToken" []
                      "call_1700000000000_4fzpq1x0k"))))
    = ["Android.getToken"; "injectJavaScript"].
Proof. by vm_compute. Qed.

(** * Further properties *)

(** ** Dispatch after configuration *)

Section dispatch_after_configure.
Context {engine : JsEngine}.

(** The completion of [handleCall] on an envelope whose names are strings,
    by the two lookups. *)
Lemma handleCall_completion_named this interfaceName methodName args callId :
  completion (handleCall this
                {| call_interfaceName := JStr interfaceName;
                   call_methodName := JStr methodName;
                   call_args := JArr args;
                   call_callId := callId |})
  = match JsMap.get interfaceName (interfaces this) with
    | None =>
        Normal (failure_response callId
                  ("Interface '" +:+ interfaceName +:+ "' not found"))
    | Some interfaceMap =>
        match JsMap.get methodName interfaceMap with
        | None =>
            Normal (failure_response callId
                      ("Method '" +:+ methodName +:+ "' not found on interface '"
                       +:+ interfaceName +:+ "'"))
        | Some handler => answer callId (settled (handler args))
        end
    end.
Proof.
  unfold handleCall, to_string, await_handler, answer.
  destruct (enableDebugLogging this); m_simpl.
  all: destruct (JsMap.get interfaceName (interfaces this)) as [interfaceMap|];
    m_simpl; [|done].
  all: destruct (JsMap.get methodName interfaceMap) as [handler|]; m_simpl;
    [|done].
  all: destruct (settled (handler args)) as [value|[message|v]]; m_simpl;
    try done.
  all: by destruct (js_String v).
Qed.

(** X1. After [configure], what a call gets is decided by the configuration
    alone, whatever was registered before: a name the configuration lacks is
    not found, and among several entries with one name the handler of the
    last one runs. What the handler did is answered with a success or a
    failure; only a failure value without a string form makes the call
    raise. *)
Theorem handleCall_after_configure (config : JavaScriptInterfaceConfig)
    (this : JavaScriptInterfaceManager)
    (interfaceName methodName : string) (args : list JsValue) (callId : string) :
  completion (handleCall (configure config this)
                (envelope interfaceName methodName args callId))
  = match configured_object config interfaceName with
    | None =>
        Normal (failure_response (JStr callId)
                  ("Interface '" +:+ interfaceName +:+ "' not found"))
    | Some interfaceObj =>
        match last_named method_name methodName (object_methods interfaceObj) with
        | None =>
            Normal (failure_response (JStr callId)
                      ("Method '" +:+ methodName +:+ "' not found on interface '"
                       +:+ interfaceName +:+ "'"))
        | Some method =>
            match settled (method_handler method args) with
            | Normal value => Normal (success_response (JStr callId) value)
            | Throw (ThrownError message) =>
                Normal (failure_response (JStr callId) message)
            | Throw (ThrownValue v) =>
                match js_String v with
                | Some text => Normal (failure_response (JStr callId) text)
                | None => Throw (ThrownError (engine_message (NotPrimitive v)))
                end
            end
        end
    end.
Proof.
  unfold envelope. rewrite handleCall_completion_named, configure_get.
  destruct (configured_object config interfaceName) as [interfaceObj|];
    simpl; [|done].
  rewrite build_methodMap_get.
  by destruct (last_named method_name methodName (object_methods interfaceObj)).
Qed.

(** X2. The console output of [handleCall]: nothing when debug logging is
    off. When it is on and the two names of the envelope have string forms,
    one line before the lookups and, if the call is answered, one after it,
    a log of the result for a success and an error line with the message for
    a failure. When it is on and a name has no string form, the call raises
    before it has logged anything. *)
Theorem handleCall_console_output (this : JavaScriptInterfaceManager)
    (call : JavaScriptInterfaceCall) :
  let run := handleCall this call in
  console_events (trace run)
  = if enableDebugLogging this then
      match js_String (call_interfaceName call),
            js_String (call_methodName call) with
      | Some interfaceText, Some methodText =>
          ConsoleLog
            [JStr ("[JavaScriptInterface] Calling "
                   +:+ interfaceText +:+ "." +:+ methodText +:+ "("
                   +:+ stringify_text (call_args call) +:+ ")")]
          :: match completion run with
             | Normal response =>
                 [match response_result response, response_error response with
                  | Some result, _ =>
                      ConsoleLog
                        [JStr ("[JavaScriptInterface] "
                               +:+ interfaceText +:+ "." +:+ methodText
                               +:+ " returned:");
                         result]
                  | None, errorMessage =>
                      ConsoleError
                        [JStr ("[JavaScriptInterface] Error in "
                               +:+ interfaceText +:+ "." +:+ methodText +:+ ":");
                         JStr (default "" errorMessage)]
                  end]
             | Throw _ => []
             end
      | _, _ => []
      end
    else [].
Proof.
  intros run. subst run. unfold handleCall, to_string, await_handler.
  destruct (js_String (call_interfaceName call)) as [interfaceText|] eqn:Hi;
    destruct (js_String (call_methodName call)) as [methodText|] eqn:Hm;
    destruct (enableDebugLogging this); m_simpl; try done.
  all: repeat (m_simpl; try done; handleCall_case).
Qed.

End dispatch_after_configure.

(** ** Envelopes that do not have the declared types *)

Section malformed_envelopes.
Context {engine : JsEngine}.

(** X3. An envelope with a name that is not a string, or with arguments that
    are neither an array nor a string, never reaches a handler, whatever the
    registry holds. It is answered with a failure, except when debug logging
    is on and one of its names has no string form: then the call raises. *)
Theorem handleCall_malformed_envelope (this : JavaScriptInterfaceManager)
    (call : JavaScriptInterfaceCall) :
  well_formed call = false →
  handler_calls (trace (handleCall this call)) = []
  ∧ if enableDebugLogging this
       && negb (present (js_String (call_interfaceName call))
                && present (js_String (call_methodName call)))
    then ∃ v, completion (handleCall this call)
              = Throw (ThrownError (engine_message (NotPrimitive v)))
    else ∃ errorMessage,
           completion (handleCall this call)
           = Normal (failure_response (call_callId call) errorMessage).
Proof.
  intros Hbad. unfold handleCall, to_string, await_handler, well_formed in *.
  destruct (js_String (call_interfaceName call)) as [interfaceText|] eqn:Hi;
    destruct (js_String (call_methodName call)) as [methodText|] eqn:Hm;
    destruct (enableDebugLogging this); m_simpl; eauto.
  all: destruct (call_interfaceName call) as [| |b|n|i|items|props];
    try (by m_simpl; eauto);
    try (by m_simpl; rewrite Hi; m_simpl; eauto).
  all: simpl in Hi; simplify_eq; simpl Map_get_any.
  all: destruct (JsMap.get _ (interfaces this)) as [interfaceMap|];
    m_simpl; eauto.
  all: destruct (call_methodName call) as [| |b|n|m|items|props];
    try (by m_simpl; eauto);
    try (by m_simpl; rewrite Hm; m_simpl; eauto).
  all: simpl in Hm; simplify_eq; simpl Map_get_any.
  all: destruct (JsMap.get _ interfaceMap) as [handler|]; m_simpl; eauto.
  all: destruct (call_args call); try done; m_simpl; eauto.
Qed.

(** X4. How the argument list of a handler is formed, for registered names:
    an array gives its elements, and a string gives its characters, one
    argument each. In both cases the handler is called once, and the call
    ends as [handleCall] ends for what the handler did. *)
Theorem handleCall_argument_list (this : JavaScriptInterfaceManager)
    (interfaceName methodName : string) (args callId : JsValue)
    (handler : Handler) (argv : list JsValue) :
  registered_handler this interfaceName methodName = Some handler →
  argument_list args = Some argv →
  let call := {| call_interfaceName := JStr interfaceName;
                 call_methodName := JStr methodName;
                 call_args := args;
                 call_callId := callId |} in
  handler_calls (trace (handleCall this call))
  = [HandlerCall (JStr interfaceName) (JStr methodName) argv]
  ∧ completion (handleCall this call) = answer callId (settled (handler argv)).
Proof.
  intros Hreg Hargv call. unfold registered_handler in Hreg.
  destruct (JsMap.get interfaceName (interfaces this)) as [interfaceMap|] eqn:Hi;
    simpl in Hreg; [|done].
  subst call. unfold handleCall, to_string, await_handler, answer.
  destruct (enableDebugLogging this); m_simpl.
  all: rewrite Hi; m_simpl; rewrite Hreg; m_simpl.
  all: destruct args; simplify_eq/=; m_simpl.
  all: destruct (settled (handler _)) as [value|[message|v]]; m_simpl;
    try done.
  all: by destruct (js_String v).
Qed.

End malformed_envelopes.

(** ** The order of the names in the registry *)

Lemma filter_all {A} (P : A → bool) (l : list A) :
  (∀ x, P x = true) → List.filter P l = l.
Proof.
  intros HP. induction l as [|x l IH]; simpl; [done|]. by rewrite HP, IH.
Qed.

Lemma filter_filter_comm {A} (P Q : A → bool) (l : list A) :
  List.filter P (List.filter Q l) = List.filter Q (List.filter P l).
Proof.
  induction l as [|x l IH]; simpl; [done|].
  destruct (P x) eqn:HP, (Q x) eqn:HQ; simpl; rewrite ?HP, ?HQ, IH; done.
Qed.

Lemma filter_filter_and {A} (P Q : A → bool) (l : list A) :
  List.filter (λ x, P x && Q x) l = List.filter Q (List.filter P l).
Proof.
  induction l as [|x l IH]; simpl; [done|].
  destruct (P x) eqn:HP; simpl; [|done].
  destruct (Q x); by rewrite IH.
Qed.

Lemma filter_other_absorbed (P : string → bool) (name : string) (l : list string) :
  P name = false →
  List.filter P (List.filter (λ other, negb (String.eqb name other)) l)
  = List.filter P l.
Proof.
  intros Hname. induction l as [|x l IH]; simpl; [done|].
  destruct (String.eqb_spec name x) as [<-|Hne]; simpl.
  - by rewrite Hname.
  - by rewrite IH.
Qed.

Lemma first_occurrences_filter (P : string → bool) (names : list string) :
  first_occurrences (List.filter P names)
  = List.filter P (first_occurrences names).
Proof.
  induction names as [|name rest IH]; simpl; [done|].
  destruct (P name) eqn:Hname; simpl.
  - by rewrite IH, filter_filter_comm.
  - by rewrite IH, filter_other_absorbed.
Qed.

Section keys_of_fold.
Context {A V : Type} (name_of : A → string) (value_of : A → V).

Lemma JsMap_has_set k k' (v : V) (m : JsMap.t V) :
  JsMap.has k' (JsMap.set k v m) = JsMap.has k' m || String.eqb k k'.
Proof.
  rewrite !JsMap_has_get, JsMap_get_set.
  destruct (String.eqb k k'), (JsMap.get k' m); done.
Qed.

(** The keys after a fold of [set]: those the map had, then the new names in
    the order of their first occurrence. *)
Lemma JsMap_keys_fold (l : list A) (init : JsMap.t V) :
  JsMap.keys (fold_left (λ m x, JsMap.set (name_of x) (value_of x) m) l init)
  = JsMap.keys init
    ++ first_occurrences
         (List.filter (λ name, negb (JsMap.has name init)) (List.map name_of l)).
Proof.
  revert init. induction l as [|x rest IH]; intros init; simpl.
  - by rewrite app_nil_r.
  - rewrite IH, JsMap_keys_set.
    destruct (JsMap.has (name_of x) init) eqn:Hhas; simpl.
    + f_equal. f_equal. apply filter_ext. intros name.
      rewrite JsMap_has_set.
      destruct (String.eqb_spec (name_of x) name) as [<-|Hne];
        [by rewrite Hhas | by rewrite orb_false_r].
    + rewrite <- app_assoc. simpl. do 2 f_equal.
      rewrite <- first_occurrences_filter, <- filter_filter_and.
      f_equal. apply filter_ext. intros name.
      rewrite JsMap_has_set. by rewrite negb_orb.
Qed.

End keys_of_fold.

(** X5. [getInterfaceNames] after [configure] lists the interface names of
    the configuration, each once and in the order of their first occurrence;
    the method names of an interface are those of the last object with its
    name, each once and in the order of their first occurrence. This is the
    order in which the bootstrap script defines the objects and their
    stubs. *)
Theorem configure_names_in_order (config : JavaScriptInterfaceConfig)
    (this : JavaScriptInterfaceManager) :
  getInterfaceNames (configure config this)
  = first_occurrences (List.map object_name (config_interfaces config))
  ∧ ∀ interfaceName,
      JsMap.keys <$> JsMap.get interfaceName (interfaces (configure config this))
      = (λ interfaceObj,
           first_occurrences
             (List.map method_name (object_methods interfaceObj)))
        <$> configured_object config interfaceName.
Proof.
  split.
  - unfold getInterfaceNames, configure. simpl.
    rewrite (JsMap_keys_fold object_name
               (λ o, build_methodMap (object_methods o))). simpl.
    f_equal. by apply filter_all.
  - intros interfaceName. rewrite configure_get.
    destruct (configured_object config interfaceName) as [interfaceObj|];
      simpl; [|done].
    f_equal. unfold build_methodMap.
    rewrite (JsMap_keys_fold method_name method_handler). simpl.
    f_equal. by apply filter_all.
Qed.

(** ** Injection after a page load *)

Lemma script_prologue_app (rest : string) :
  ∃ c text, script_prologue +:+ rest = String c text.
Proof. by eexists _, _. Qed.

Lemma generateInjectionScript_cases this :
  match getInterfaceNames this with
  | [] => generateInjectionScript this = ""
  | _ => ∃ c text, generateInjectionScript this = String c text
  end.
Proof.
  unfold generateInjectionScript, getInterfaceNames.
  destruct (JsMap.keys (interfaces this)) as [|k ks]; simpl; [done|].
  apply script_prologue_app.
Qed.

Lemma configure_no_interfaces config this :
  getInterfaceNames (configure config this) = []
  ↔ config_interfaces config = [].
Proof.
  unfold getInterfaceNames, configure. simpl.
  rewrite (JsMap_keys_fold object_name (λ o, build_methodMap (object_methods o))).
  simpl. rewrite filter_all by done.
  by destruct (config_interfaces config).
Qed.

(** What [enhancedOnLoadingFinish] does, for any manager. *)
Lemma enhancedOnLoadingFinish_run (host : WebViewHost) (onLoadingFinish : M unit) :
  let run := enhancedOnLoadingFinish host onLoadingFinish in
  match completion onLoadingFinish with
  | Normal _ =>
      completion run = Normal tt
      ∧ trace run
        = trace onLoadingFinish
          ++ match jsInterfaceManager_current host, webViewRef_current host with
             | Some manager, true =>
                 match getInterfaceNames manager with
                 | [] => []
                 | _ => [InjectJavaScript (generateInjectionScript manager)]
                 end
             | _, _ => []
             end
  | Throw error => completion run = Throw error ∧ trace run = trace onLoadingFinish
  end.
Proof.
  intros run. subst run. unfold enhancedOnLoadingFinish.
  m_simpl. destruct (completion onLoadingFinish) as [[]|error];
    [|split; [done | apply app_nil_r]].
  destruct (jsInterfaceManager_current host) as [manager|]; [|done].
  destruct (webViewRef_current host); [|done].
  pose proof (generateInjectionScript_cases manager) as Hscript.
  destruct (getInterfaceNames manager) as [|k ks].
  - by rewrite Hscript.
  - destruct Hscript as (c & text & Hscript).
    by destruct (generateInjectionScript manager).
Qed.

(** X6. [enhancedOnLoadingFinish], in a component whose manager comes from
    its [javaScriptInterfaces] prop, calls the original handler first. If that
    handler throws, nothing is injected. Otherwise the bootstrap script of the
    configuration is injected exactly when the prop is given and lists at
    least one interface and the web view is mounted. *)
Theorem enhancedOnLoadingFinish_injection
    (javaScriptInterfaces : option JavaScriptInterfaceConfig)
    (mounted onMessage : bool) (onLoadingFinish : M unit) :
  let host := {| jsInterfaceManager_current :=
                   jsInterfaceManager_effect javaScriptInterfaces;
                 webViewRef_current := mounted;
                 onMessageProp := onMessage |} in
  let run := enhancedOnLoadingFinish host onLoadingFinish in
  match completion onLoadingFinish with
  | Normal _ =>
      completion run = Normal tt
      ∧ trace run
        = trace onLoadingFinish
          ++ match javaScriptInterfaces, mounted with
             | Some config, true =>
                 match config_interfaces config with
                 | [] => []
                 | _ => [InjectJavaScript
                           (generateInjectionScript (constructor (Some config)))]
                 end
             | _, _ => []
             end
  | Throw error => completion run = Throw error ∧ trace run = trace onLoadingFinish
  end.
Proof.
  intros host run.
  pose proof (enhancedOnLoadingFinish_run host onLoadingFinish) as Hrun.
  fold run in Hrun. simpl in Hrun.
  destruct (completion onLoadingFinish) as [[]|error]; [|done].
  destruct Hrun as [Hdone ->]. split; [done|]. f_equal.
  destruct javaScriptInterfaces as [config|]; simpl; [|done].
  destruct mounted; [|done].
  pose proof (configure_no_interfaces config new_manager) as Hnames.
  destruct (getInterfaceNames (configure config new_manager)) as [|k ks];
    destruct (config_interfaces config) as [|o os]; try done.
  - discriminate (proj1 Hnames eq_refl).
  - discriminate (proj2 Hnames eq_refl).
Qed.

(** ** Warnings for properties that changed *)

Section useWarnIfChanges_facts.
Context {T : Type} `{EqDecision T}.

Lemma last_nonempty (value : T) (rest : list T) (d d' : T) :
  List.last (value :: rest) d = List.last (value :: rest) d'.
Proof.
  revert value. induction rest as [|next rest IH]; intros value; [done|].
  change (List.last (next :: rest) d = List.last (next :: rest) d'). apply IH.
Qed.

Lemma last_cons_default (value previous : T) (rest : list T) :
  List.last (value :: rest) previous = List.last rest value.
Proof.
  destruct rest as [|next rest]; [done|].
  change (List.last (next :: rest) previous = List.last (next :: rest) value).
  apply last_nonempty.
Qed.

Lemma useWarnIfChanges_same (value : T) (name : string) (ref : option T) :
  default value ref = value →
  useWarnIfChanges value name ref = (Some value, []).
Proof.
  intros Hsame. unfold useWarnIfChanges. rewrite Hsame.
  rewrite bool_decide_eq_false_2; [done | by intros Hne].
Qed.

Lemma useWarnIfChanges_changed (value previous : T) (name : string) :
  previous ≠ value →
  useWarnIfChanges value name (Some previous) = (Some value, [warning_text name]).
Proof.
  intros Hne. unfold useWarnIfChanges. simpl.
  by rewrite bool_decide_eq_true_2.
Qed.

Lemma render_all_after (values : list T) (name : string) (previous : T) :
  render_all values name (Some previous)
  = (Some (List.last values previous),
     repeat (warning_text name) (changes previous values)).
Proof.
  revert previous. induction values as [|value rest IH]; intros previous; [done|].
  cbn [render_all changes]. rewrite last_cons_default.
  destruct (decide (previous = value)) as [->|Hne].
  - rewrite useWarnIfChanges_same by done. simpl. by rewrite IH.
  - rewrite useWarnIfChanges_changed by done. simpl. by rewrite IH.
Qed.

(** X7. Over the renders of a component, [useWarnIfChanges] warns once for
    every render in which the value differs from the value of the render
    before, with the text that names the property; it does not warn in the
    first render, nor again while a changed value stays. Afterwards the ref
    holds the value of the last render. *)
Theorem useWarnIfChanges_warns_per_change (first : T) (later : list T)
    (name : string) :
  render_all (first :: later) name None
  = (Some (List.last later first),
     repeat ("Changes to property " +:+ name
             +:+ " do nothing after the initial render.")
            (changes first later)).
Proof.
  cbn [render_all]. rewrite useWarnIfChanges_same by done. simpl.
  by rewrite render_all_after.
Qed.

End useWarnIfChanges_facts.

(** ** The source handed to the native view *)

Lemma JsMap_set_fresh {V} (k : string) (v : V) (m : JsMap.t V) :
  k ∉ JsMap.keys m → JsMap.set k v m = m ++ [(k, v)].
Proof.
  induction m as [|[k0 v0] rest IH]; simpl; [done|].
  rewrite not_elem_of_cons. intros [Hne Hrest].
  destruct (String.eqb_spec k0 k) as [->|_]; [done|]. by rewrite IH.
Qed.

(** Storing entries with distinct new keys one after the other appends them
    in their order. *)
Lemma JsMap_fold_set_distinct {V} (g : string → V → V)
    (l init : list (string * V)) :
  NoDup (l.*1) →
  (∀ k, k ∈ l.*1 → k ∉ JsMap.keys init) →
  fold_left (λ prev entry, JsMap.set entry.1 (g entry.1 entry.2) prev) l init
  = init ++ List.map (λ entry, (entry.1, g entry.1 entry.2)) l.
Proof.
  revert init. induction l as [|[k v] rest IH]; intros init Hnodup Hfresh; simpl.
  - by rewrite app_nil_r.
  - apply NoDup_cons in Hnodup as [Hk Hrest].
    rewrite JsMap_set_fresh by (apply Hfresh; simpl; apply elem_of_cons; auto).
    rewrite IH; [by rewrite <- app_assoc | done |].
    intros k' Hk'. unfold JsMap.keys. rewrite map_app. simpl.
    rewrite elem_of_app, list_elem_of_singleton.
    intros [Hinit| ->]; [|done].
    apply (Hfresh k'); [simpl; apply elem_of_cons; auto | done].
Qed.

(** X8. [newSource] of a source object (its keys distinct, as the keys of an
    object are) is an object with the same keys in the same order. Every
    value is kept as it is, except that a [headers] property holding an
    object or an array is replaced by the list of its entries, [{name,
    value}] for each one in order, so that no header is lost or changed. *)
Theorem newSource_object (props : list (string * JsValue)) :
  NoDup (props.*1) →
  newSource (JObj props)
  = Some (JObj (List.map
                  (λ entry,
                     (entry.1,
                      match entry.2 with
                      | JObj _ | JArr _ =>
                          if String.eqb entry.1 "headers"
                          then header_list entry.2 else entry.2
                      | value => value
                      end)) props))
  ∧ ∀ headers,
      headers_of (header_list headers)
      = List.map (λ header, (JStr header.1, header.2)) (Object_entries headers).
Proof.
  intros Hnodup. split.
  - unfold newSource. simpl.
    rewrite (JsMap_fold_set_distinct newSource_value) by
      (done || by intros ? ? ?%elem_of_nil).
    simpl. do 2 f_equal. apply map_ext. intros [k v]. simpl. f_equal.
    unfold newSource_value.
    destruct (String.eqb k "headers"), v as [| |[]|[| |]|[|]| |]; done.
  - intros headers. unfold headers_of, header_list.
    rewrite map_map. by apply map_ext.
Qed.

(** ** Calls in flight *)

Section calls_in_flight.
Context {engine : JsEngine}.

(** A stub that finds [postMessage]. *)
Lemma stub_with_transport interfaceName methodName args now random w :
  postMessage_available w = true →
  stub interfaceName methodName args now random w
  = ({| jsInterfaceCallbacks :=
          Some (<[make_callId now random :=
                    {| callback_resolve := List.length (promises w);
                       callback_reject := List.length (promises w) |}]>
                  (default ∅ (jsInterfaceCallbacks w)));
        postMessage_available := true;
        posted := posted w
                  ++ [stringify_text
                        (call_message interfaceName methodName args
                           (make_callId now random))];
        promises := promises w ++ [Pending] |},
     List.length (promises w)).
Proof. intros Hon. unfold stub. simpl. by rewrite Hon. Qed.

(** The response for an entry whose promise is pending. *)
Lemma handleJSInterfaceResponse_pending response w table key p :
  jsInterfaceCallbacks w = Some table →
  js_String (response_callId response) = Some key →
  table !! key = Some {| callback_resolve := p; callback_reject := p |} →
  promises w !! p = Some Pending →
  handleJSInterfaceResponse response w
  = ({| jsInterfaceCallbacks := Some (delete key table);
        postMessage_available := postMessage_available w;
        posted := posted w;
        promises := <[p := settlement response]> (promises w) |},
     Normal tt).
Proof.
  intros Htable Hid Hkey Hpending.
  rewrite (handleJSInterfaceResponse_entry _ _ _ _ _ Htable Hid Hkey).
  unfold settle_entry, settlement, settle, with_callbacks. simpl.
  destruct (response_success response); by rewrite Hpending.
Qed.

(** Two responses, for two entries with distinct keys and promises. *)
Lemma handleJSInterfaceResponse_twice first second w table key1 key2 p q :
  jsInterfaceCallbacks w = Some table →
  js_String (response_callId first) = Some key1 →
  js_String (response_callId second) = Some key2 →
  key1 ≠ key2 →
  table !! key1 = Some {| callback_resolve := p; callback_reject := p |} →
  table !! key2 = Some {| callback_resolve := q; callback_reject := q |} →
  p ≠ q →
  promises w !! p = Some Pending →
  promises w !! q = Some Pending →
  (handleJSInterfaceResponse first w).2 = Normal tt
  ∧ handleJSInterfaceResponse second (handleJSInterfaceResponse first w).1
    = ({| jsInterfaceCallbacks := Some (delete key2 (delete key1 table));
          postMessage_available := postMessage_available w;
          posted := posted w;
          promises := <[q := settlement second]>
                        (<[p := settlement first]> (promises w)) |},
       Normal tt).
Proof.
  intros Htable Hid1 Hid2 Hkeys Hfirst Hsecond Hpq Hp Hq.
  rewrite (handleJSInterfaceResponse_pending first w table key1 p) by done.
  split; [done|]. simpl.
  erewrite (handleJSInterfaceResponse_pending second _ _ key2 q);
    [done | done | done | |].
  - by rewrite lookup_delete_ne.
  - simpl. by rewrite list_lookup_insert_ne.
Qed.

(** X10. Two calls in flight with distinct call ids are settled each by its
    own response, in whichever order the two responses arrive: either order
    leaves the same window, in which the promise of each call is settled by
    the response with its call id and neither entry is left in the pending
    table; no delivery throws. *)
Theorem responses_in_either_order
    interfaceName1 methodName1 args1 now1 random1
    interfaceName2 methodName2 args2 now2 random2
    (w : Window) (response1 response2 : JavaScriptInterfaceResponse) :
  postMessage_available w = true →
  make_callId now1 random1 ≠ make_callId now2 random2 →
  response_callId response1 = JStr (make_callId now1 random1) →
  response_callId response2 = JStr (make_callId now2 random2) →
  let first := stub interfaceName1 methodName1 args1 now1 random1 w in
  let second := stub interfaceName2 methodName2 args2 now2 random2 first.1 in
  let in_order :=
    handleJSInterfaceResponse response2
      (handleJSInterfaceResponse response1 second.1).1 in
  let reversed :=
    handleJSInterfaceResponse response1
      (handleJSInterfaceResponse response2 second.1).1 in
  in_order = reversed
  ∧ in_order.2 = Normal tt
  ∧ (handleJSInterfaceResponse response1 second.1).2 = Normal tt
  ∧ (handleJSInterfaceResponse response2 second.1).2 = Normal tt
  ∧ promises in_order.1 !! first.2 = Some (settlement response1)
  ∧ promises in_order.1 !! second.2 = Some (settlement response2)
  ∧ pending_entry in_order.1 (make_callId now1 random1) = None
  ∧ pending_entry in_order.1 (make_callId now2 random2) = None.
Proof.
  intros Hon Hids Hid1 Hid2 first second in_order reversed.
  subst first second in_order reversed.
  rewrite (stub_with_transport _ _ _ _ _ w Hon). cbn [fst snd].
  rewrite stub_with_transport by done. cbn [fst snd promises posted
    jsInterfaceCallbacks postMessage_available default from_option].
  set (n := List.length (promises w)).
  set (table0 := default ∅ (jsInterfaceCallbacks w)).
  set (entry1 := {| callback_resolve := n; callback_reject := n |}).
  set (entry2 := {| callback_resolve := List.length (promises w ++ [Pending]);
                    callback_reject := List.length (promises w ++ [Pending]) |}).
  set (table := <[make_callId now2 random2 := entry2]>
                  (<[make_callId now1 random1 := entry1]> table0)).
  match goal with
  | |- context [handleJSInterfaceResponse response1 ?x] =>
      match x with Build_Window _ _ _ _ => set (w2 := x) end
  end.
  assert (List.length (promises w ++ [Pending]) = S n) as Hlen.
  { rewrite length_app. simpl. subst n. lia. }
  assert (table !! make_callId now1 random1 = Some entry1) as H1.
  { subst table. rewrite lookup_insert_ne by done. apply lookup_insert_eq. }
  assert (table !! make_callId now2 random2 = Some entry2) as H2.
  { subst table. apply lookup_insert_eq. }
  assert (js_String (response_callId response1)
          = Some (make_callId now1 random1)) as Hkey1.
  { by rewrite Hid1. }
  assert (js_String (response_callId response2)
          = Some (make_callId now2 random2)) as Hkey2.
  { by rewrite Hid2. }
  assert (promises w2 !! n = Some Pending) as Hp1.
  { subst w2. simpl. rewrite lookup_app_l by (rewrite length_app; simpl; lia).
    by apply list_lookup_middle. }
  assert (promises w2 !! S n = Some Pending) as Hp2.
  { subst w2. simpl. apply list_lookup_middle. by rewrite Hlen. }
  destruct (handleJSInterfaceResponse_twice response1 response2 w2 table
              (make_callId now1 random1) (make_callId now2 random2) n (S n))
    as [Hok1 Horder]; try done; try lia.
  { by rewrite <- Hlen. }
  destruct (handleJSInterfaceResponse_twice response2 response1 w2 table
              (make_callId now2 random2) (make_callId now1 random1) (S n) n)
    as [Hok2 Hreversed]; try done; try lia.
  { by rewrite <- Hlen. }
  rewrite Horder, Hreversed. simpl.
  rewrite (delete_delete table), (list_insert_insert_ne _ n (S n)) by lia.
  split_and!; try done.
  - rewrite list_lookup_insert_ne by lia.
    rewrite list_lookup_insert_eq; [done|]. by apply lookup_lt_Some in Hp1.
  - rewrite Hlen. rewrite list_lookup_insert_eq; [done|].
    rewrite length_insert. by apply lookup_lt_Some in Hp2.
  - unfold pending_entry. simpl. apply lookup_delete_eq.
  - unfold pending_entry. simpl.
    rewrite lookup_delete_ne by done. apply lookup_delete_eq.
Qed.

End calls_in_flight.

Section colliding_and_reinjected.
Context {engine : JsEngine}.

(** X11. Two calls that draw the same call id (the same [Date.now()] and the
    same random fragment) share one entry of the pending table, and the later
    call takes it: the first response with that id settles the promise of the
    later call, whichever call it answers, a second response with the id is
    dropped, and the promise of the earlier call is still pending after
    both. *)
Theorem colliding_call_ids
    interfaceName1 methodName1 args1 interfaceName2 methodName2 args2
    (now : Z) (random : string)
    (w : Window) (response response' : JavaScriptInterfaceResponse) :
  postMessage_available w = true →
  response_callId response = JStr (make_callId now random) →
  response_callId response' = JStr (make_callId now random) →
  let first := stub interfaceName1 methodName1 args1 now random w in
  let second := stub interfaceName2 methodName2 args2 now random first.1 in
  let once := handleJSInterfaceResponse response second.1 in
  let twice := handleJSInterfaceResponse response' once.1 in
  first.2 ≠ second.2
  ∧ once.2 = Normal tt
  ∧ promises once.1 !! second.2 = Some (settlement response)
  ∧ promises once.1 !! first.2 = Some Pending
  ∧ pending_entry once.1 (make_callId now random) = None
  ∧ twice = (once.1, Normal tt).
Proof.
  intros Hon Hid Hid' first second once twice.
  subst first second once twice.
  rewrite (stub_with_transport _ _ _ _ _ w Hon). cbn [fst snd].
  rewrite stub_with_transport by done. cbn [fst snd promises posted
    jsInterfaceCallbacks postMessage_available].
  set (n := List.length (promises w)).
  assert (List.length (promises w ++ [Pending]) = S n) as Hlen.
  { rewrite length_app. simpl. subst n. lia. }
  rewrite Hlen.
  match goal with
  | |- context [handleJSInterfaceResponse response ?x] =>
      match x with Build_Window (Some ?t) _ _ _ =>
        set (table := t); set (w2 := x) end
  end.
  assert (table !! make_callId now random
          = Some {| callback_resolve := S n; callback_reject := S n |}) as Hkey.
  { subst table. apply lookup_insert_eq. }
  assert (promises w2 !! S n = Some Pending) as Hp2.
  { subst w2. simpl. apply list_lookup_middle. by rewrite Hlen. }
  rewrite (handleJSInterfaceResponse_pending response w2 table
             (make_callId now random) (S n)) by (done || by rewrite Hid).
  simpl.
  split_and!; try done.
  - rewrite list_lookup_insert_eq; [done|]. by apply lookup_lt_Some in Hp2.
  - rewrite list_lookup_insert_ne by lia.
    rewrite lookup_app_l by (rewrite length_app; simpl; lia).
    by apply list_lookup_middle.
  - unfold pending_entry. simpl. apply lookup_delete_eq.
  - apply (handleJSInterfaceResponse_no_entry _ _
             (delete (make_callId now random) table) (make_callId now random));
      [done | by rewrite Hid' | |].
    + apply lookup_delete_eq.
    + apply make_callId_not_inherited.
Qed.

(** X12. Injecting the bootstrap again while a call is in flight does not
    lose the call: after the first statement of the bootstrap has run once
    more, the pending table, the promises and the posted messages are what
    they were, and the response still settles the promise of the call. *)
Theorem reinjection_keeps_calls_in_flight
    interfaceName methodName args now random
    (w : Window) (response : JavaScriptInterfaceResponse) :
  postMessage_available w = true →
  response_callId response = JStr (make_callId now random) →
  let called := stub interfaceName methodName args now random w in
  let reinjected := initialize_callbacks called.1 in
  let answered := handleJSInterfaceResponse response reinjected in
  reinjected = called.1
  ∧ answered.2 = Normal tt
  ∧ promises answered.1 !! called.2 = Some (settlement response)
  ∧ pending_entry answered.1 (make_callId now random) = None.
Proof.
  intros Hon Hid called reinjected answered.
  subst called reinjected answered.
  rewrite (stub_with_transport _ _ _ _ _ w Hon). cbn [fst snd].
  unfold initialize_callbacks. cbn [promises posted jsInterfaceCallbacks
    postMessage_available]. simpl default.
  split; [done|].
  erewrite (handleJSInterfaceResponse_pending response _ _
              (make_callId now random)); [| done | by rewrite Hid | |].
  - simpl. split_and!; [done | | by unfold pending_entry; simpl;
                                    apply lookup_delete_eq].
    rewrite list_lookup_insert_eq; [done|].
    rewrite length_app. simpl. lia.
  - apply lookup_insert_eq.
  - simpl. by apply list_lookup_middle.
Qed.

End colliding_and_reinjected.

(** ** From the stub to the host and back *)

Section round_trip_through_host.
Context {engine : JsEngine}.






End round_trip_through_host.

(** ** The queries and the dispatcher *)

Section queries.
Context {engine : JsEngine}.

(** X14. [hasMethod] tells whether a call reaches a handler: the call of a
    well-typed envelope invokes a handler, once and with the arguments of the
    envelope, exactly when [hasMethod] is true for its two names; and
    [hasMethod] is true only for the interfaces that [hasInterface] and
    [getInterfaceNames] report. *)
Theorem hasMethod_decides_dispatch (this : JavaScriptInterfaceManager)
    (interfaceName methodName : string) (args : list JsValue) (callId : string) :
  handler_calls
    (trace (handleCall this (envelope interfaceName methodName args callId)))
  = (if hasMethod this interfaceName methodName
     then [HandlerCall (JStr interfaceName) (JStr methodName) args]
     else [])
  ∧ (hasMethod this interfaceName methodName = true →
     hasInterface this interfaceName = true)
  ∧ (hasInterface this interfaceName = true
     ↔ interfaceName ∈ getInterfaceNames this).
Proof.
  split_and!.
  - unfold hasMethod. rewrite ?JsMap_has_get.
    unfold handleCall, to_string, envelope, await_handler.
    destruct (enableDebugLogging this); m_simpl.
    all: destruct (JsMap.get interfaceName (interfaces this)) as [interfaceMap|];
      m_simpl; [|done].
    all: rewrite JsMap_has_get.
    all: destruct (JsMap.get methodName interfaceMap) as [handler|]; m_simpl;
      [|done].
    all: destruct (settled (handler args)) as [value|[message|v]]; m_simpl;
      try done.
    all: by destruct (js_String v).
  - unfold hasMethod, hasInterface. rewrite JsMap_has_get.
    by destruct (JsMap.get interfaceName (interfaces this)).
  - apply JsMap_has_keys.
Qed.

End queries.

(** * The further properties on the sample data *)

(** An envelope without any of its fields is answered with a failure. *)
Lemma handleCall_malformed_envelope_witness :
  let call := call_of_value (JObj [("type", JStr "JS_INTERFACE_CALL")]) in
  handler_calls (trace (handleCall (engine := sample_engine) sample_manager call))
  = []
  ∧ ∃ errorMessage,
      completion (handleCall (engine := sample_engine) sample_manager call)
      = Normal (failure_response JUndefined errorMessage).
Proof.
  exact (handleCall_malformed_envelope (engine := sample_engine) sample_manager
           (call_of_value (JObj [("type", JStr "JS_INTERFACE_CALL")])) eq_refl).
Defined.

(** A string in the place of the argument list arrives as its characters,
    whether a character takes one byte of the text or several. *)
Lemma handleCall_argument_list_witness :
  let call := {| call_interfaceName := JStr "Android";
                 call_methodName := JStr "getToken";
                 call_args := JStr "añ€b";
                 call_callId := JNum 7 |} in
  handler_calls (trace (handleCall (engine := sample_engine) sample_manager call))
  = [HandlerCall (JStr "Android") (JStr "getToken")
       [JStr "a"; JStr "ñ"; JStr "€"; JStr "b"]]
  ∧ completion (handleCall (engine := sample_engine) sample_manager call)
    = Normal (success_response (JNum 7) (JStr "abc")).
Proof.
  exact (handleCall_argument_list (engine := sample_engine) sample_manager
           "Android" "getToken" (JStr "añ€b") (JNum 7) getToken
           [JStr "a"; JStr "ñ"; JStr "€"; JStr "b"] eq_refl eq_refl).
Defined.

Lemma newSource_object_witness :
  newSource (JObj sample_source)
  = Some (JObj
            [("uri", JStr "https://example.com/");
             ("headers",
              JArr [JObj [("name", JStr "Accept"); ("value", JStr "text/html")];
                    JObj [("name", JStr "X-Token"); ("value", JStr "abc")]])]).
Proof.
  assert (NoDup (sample_source.*1)) as Hkeys.
  { change (NoDup ["uri"; "headers"]).
    apply NoDup_cons_2; [by intros ?%list_elem_of_singleton | apply NoDup_singleton]. }
  exact (proj1 (newSource_object sample_source Hkeys)).
Defined.

(** The call [Android.getToken()] of the sample, answered by a success. *)
Lemma stub_settled_by_response_witness :
  let called := stub (engine := sample_engine) "Android" "getToken" []
                  1700000000000 "4fzpq1x0k" (fresh_window true) in
  let answered :=
    handleJSInterfaceResponse (engine := sample_engine)
      (success_response (JStr "call_1700000000000_4fzpq1x0k") (JStr "abc"))
      called.1 in
  promises called.1 !! called.2 = Some Pending
  ∧ answered.2 = Normal tt
  ∧ promises answered.1 !! called.2 = Some (Fulfilled (JStr "abc"))
  ∧ pending_entry answered.1 "call_1700000000000_4fzpq1x0k" = None.
Proof.
  intros called answered.
  destruct (stub_settled_by_response (engine := sample_engine)
              "Android" "getToken" [] 1700000000000 "4fzpq1x0k"
              (fresh_window true)
              (success_response (JStr "call_1700000000000_4fzpq1x0k") (JStr "abc"))
              eq_refl eq_refl)
    as (_ & Hpending & Hdone & Hsettled & Hgone).
  exact (conj Hpending (conj Hdone (conj Hsettled Hgone))).
Defined.

(** Two calls, the second answered first. *)
Lemma responses_in_either_order_witness :
  let first := stub (engine := sample_engine) "Android" "getToken" []
                 1700000000000 "4fzpq1x0k" (fresh_window true) in
  let second := stub (engine := sample_engine) "NativeAPI" "openCamera" []
                  1700000000001 "x81c0qzr2" first.1 in
  let response1 :=
    success_response (JStr "call_1700000000000_4fzpq1x0k") (JStr "abc") in
  let response2 :=
    failure_response (JStr "call_1700000000001_x81c0qzr2") "Camera unavailable" in
  let reversed :=
    handleJSInterfaceResponse (engine := sample_engine) response1
      (handleJSInterfaceResponse (engine := sample_engine) response2 second.1).1 in
  promises reversed.1
  = [Fulfilled (JStr "abc"); Rejected (ThrownError "Camera unavailable")].
Proof.
  intros first second response1 response2 reversed.
  assert (make_callId 1700000000000 "4fzpq1x0k"
          ≠ make_callId 1700000000001 "x81c0qzr2") as Hids.
  { intros Heq. vm_compute in Heq. discriminate Heq. }
  destruct (responses_in_either_order (engine := sample_engine)
              "Android" "getToken" [] 1700000000000 "4fzpq1x0k"
              "NativeAPI" "openCamera" [] 1700000000001 "x81c0qzr2"
              (fresh_window true) response1 response2 eq_refl Hids eq_refl eq_refl)
    as (Hsame & _).
  exact (f_equal (λ r, promises r.1) (eq_sym Hsame)).
Defined.

(** Two calls with one call id: the answer to the first call settles the
    promise of the second, and the first is left pending. *)
Lemma colliding_call_ids_witness :
  let first := stub (engine := sample_engine) "Android" "getToken" []
                 1700000000000 "4fzpq1x0k" (fresh_window true) in
  let second := stub (engine := sample_engine) "NativeAPI" "openCamera" []
                  1700000000000 "4fzpq1x0k" first.1 in
  let response :=
    success_response (JStr "call_1700000000000_4fzpq1x0k") (JStr "abc") in
  let once := handleJSInterfaceResponse (engine := sample_engine) response second.1 in
  promises once.1 !! second.2 = Some (Fulfilled (JStr "abc"))
  ∧ promises once.1 !! first.2 = Some Pending
  ∧ handleJSInterfaceResponse (engine := sample_engine) response once.1
    = (once.1, Normal tt).
Proof.
  intros first second response once.
  destruct (colliding_call_ids (engine := sample_engine)
              "Android" "getToken" [] "NativeAPI" "openCamera" []
              1700000000000 "4fzpq1x0k" (fresh_window true) response response
              eq_refl eq_refl eq_refl)
    as (_ & _ & Hlater & Hearlier & _ & Hdropped).
  exact (conj Hlater (conj Hearlier Hdropped)).
Defined.

Lemma reinjection_keeps_calls_in_flight_witness :
  let called := stub (engine := sample_engine) "Android" "getToken" []
                  1700000000000 "4fzpq1x0k" (fresh_window true) in
  let answered :=
    handleJSInterfaceResponse (engine := sample_engine)
      (success_response (JStr "call_1700000000000_4fzpq1x0k") (JStr "abc"))
      (initialize_callbacks called.1) in
  promises answered.1 !! called.2 = Some (Fulfilled (JStr "abc")).
Proof.
  intros called answered.
  destruct (reinjection_keeps_calls_in_flight (engine := sample_engine)
              "Android" "getToken" [] 1700000000000 "4fzpq1x0k"
              (fresh_window true)
              (success_response (JStr "call_1700000000000_4fzpq1x0k") (JStr "abc"))
              eq_refl eq_refl)
    as (_ & _ & Hsettled & _).
  exact Hsettled.
Defined.


(** Three renders with the values true, true, false warn once. *)
Example useWarnIfChanges_three_renders :
  render_all [true; true; false] "incognito" None
  = (Some false,
     ["Changes to property incognito do nothing after the initial render."]).
Proof. reflexivity. Qed.
